(** * Classification metrics from a confusion matrix

    A shallow embedding of [scripts/precision_recall.py]
    ([calculate_classification_metrics]) and the properties its
    specification states.

    Numeric model.  The matrix is a NumPy [int64] array: integer
    arithmetic on its entries ([+], [-], [*], [np.sum], [np.trace]) is
    arithmetic modulo [2^64] on the signed range, written out with
    [Int64.wrap].  True division and [np.sqrt] produce [float64] values;
    these are modelled by exact real numbers extended with the three IEEE
    special values (rounding is abstracted, the special values and the
    comparisons on them are kept).  One decision of the code is taken on
    a [float64] whose rounding can change it, the test of [np.average]
    that the weights do not add up to zero: there the sum is computed as
    NumPy computes it, on the converted weights, with rounding to nearest
    and in NumPy's order of additions.  Exceptions are part of the
    model, and so are the warnings NumPy issues on a zero division, an
    overflow or an invalid operation. *)

From stdpp Require Import base option list strings gmap.
From Stdlib Require Import ZArith List Reals Lia Lra Psatz.
Import ListNotations.

Open Scope Z_scope.

(* ------------------------------------------------------------------ *)
(** ** Exceptions *)

Inductive exn : Type :=
  | IndexError
  | ZeroDivisionError
  | TypeError.

Inductive result (A : Type) : Type :=
  | Ok (a : A)
  | Raise (e : exn).
Arguments Ok {A} a.
Arguments Raise {A} e.

#[global] Instance result_ret : MRet result := fun A a => Ok a.
#[global] Instance result_bind : MBind result :=
  fun A B f m => match m with Ok a => f a | Raise e => Raise e end.

(* ------------------------------------------------------------------ *)
(** ** [np.int64] scalars *)

Module Int64.

Definition min_int : Z := - 2 ^ 63.
Definition max_int : Z := 2 ^ 63 - 1.

Definition wrap (z : Z) : Z := (z + 2 ^ 63) mod 2 ^ 64 - 2 ^ 63.

Definition add (a b : Z) : Z := wrap (a + b).
Definition sub (a b : Z) : Z := wrap (a - b).
Definition mul (a b : Z) : Z := wrap (a * b).

Definition in_range (z : Z) : Prop := min_int <= z <= max_int.

End Int64.

(** [np.sum] of a one-dimensional [int64] array. *)
Definition sum64 (l : list Z) : Z := fold_right Int64.add 0 l.

(** The same sum over the mathematical integers. *)
Definition zsum (l : list Z) : Z := fold_right Z.add 0 l.

(* ------------------------------------------------------------------ *)
(** ** [np.float64] scalars *)

Inductive float64 : Type :=
  | Fin (x : R)
  | PInf
  | NInf
  | NaN.

Definition of_int (z : Z) : float64 := Fin (IZR z).

Definition Rltb (x y : R) : bool := if Rlt_dec x y then true else false.
Definition Reqb (x y : R) : bool := if Req_dec_T x y then true else false.

(** An infinity of sign [pos] multiplied by the sign of a finite [x]. *)
Definition inf_times (pos : bool) (x : R) : float64 :=
  if Rltb 0 x then (if pos then PInf else NInf)
  else if Rltb x 0 then (if pos then NInf else PInf)
  else NaN.

Definition fadd (a b : float64) : float64 :=
  match a, b with
  | NaN, _ | _, NaN => NaN
  | Fin x, Fin y => Fin (x + y)
  | PInf, NInf | NInf, PInf => NaN
  | PInf, _ | _, PInf => PInf
  | NInf, _ | _, NInf => NInf
  end.

Definition fmul (a b : float64) : float64 :=
  match a, b with
  | NaN, _ | _, NaN => NaN
  | Fin x, Fin y => Fin (x * y)
  | PInf, Fin y | Fin y, PInf => inf_times true y
  | NInf, Fin y | Fin y, NInf => inf_times false y
  | PInf, PInf | NInf, NInf => PInf
  | PInf, NInf | NInf, PInf => NInf
  end.

(** Division.  A zero divisor is always the positive zero here: divisors
    are converted integers, square roots or sums of converted integers. *)
Definition fdiv (a b : float64) : float64 :=
  match a, b with
  | NaN, _ | _, NaN => NaN
  | Fin x, Fin y => if Reqb y 0 then inf_times true x else Fin (x / y)
  | Fin _, (PInf | NInf) => Fin 0
  | PInf, Fin y => if Rltb y 0 then NInf else PInf
  | NInf, Fin y => if Rltb y 0 then PInf else NInf
  | (PInf | NInf), (PInf | NInf) => NaN
  end.

(** [np.sqrt]: not-a-number on a negative argument. *)
Definition fsqrt (a : float64) : float64 :=
  match a with
  | Fin x => if Rltb x 0 then NaN else Fin (sqrt x)
  | PInf => PInf
  | NInf | NaN => NaN
  end.

(** [a > b] *)
Definition fgt (a b : float64) : bool :=
  match a, b with
  | Fin x, Fin y => Rltb y x
  | PInf, (Fin _ | NInf) | Fin _, NInf => true
  | _, _ => false
  end.

(** [a == b] and [a != b] *)
Definition feq (a b : float64) : bool :=
  match a, b with
  | Fin x, Fin y => Reqb x y
  | PInf, PInf | NInf, NInf => true
  | _, _ => false
  end.
Definition fne (a b : float64) : bool := negb (feq a b).

(** [np.int64 / np.int64]: both operands are converted, then divided. *)
Definition truediv (a b : Z) : float64 := fdiv (of_int a) (of_int b).

Definition fsum (l : list float64) : float64 := fold_right fadd (Fin 0) l.

(** [lo <= a <= hi] for a finite [a]; false on the special values. *)
Definition within (lo hi : R) (a : float64) : Prop :=
  match a with Fin x => (lo <= x <= hi)%R | _ => False end.

(* ------------------------------------------------------------------ *)
(** ** The order of additions in a sum *)

(** The [add] loops of NumPy reduce a run of [n] contiguous elements
    with the routine [pairwise_sum]: a plain loop below 8 elements,
    eight accumulators up to 128 elements, two halves above. *)
Section PairwiseSum.

Context {A : Type} (add : A -> A -> A) (zero : A).

(** [res += a[i]] for the elements of [l] in turn. *)
Definition accumulate (res : A) (l : list A) : A := fold_left add l res.

(** [k] rounds of [r[j] += a[i + j]] for [j < 8]: the eight accumulators
    and the elements not yet added. *)
Fixpoint unrolled (k : nat) (r l : list A) : list A * list A :=
  match k with
  | O => (r, l)
  | S k => unrolled k (zip_with add r (firstn 8 l)) (skipn 8 l)
  end.

(** [((r[0] + r[1]) + (r[2] + r[3])) + ((r[4] + r[5]) + (r[6] + r[7]))] *)
Definition combine_lanes (r : list A) : A :=
  match r with
  | [r0; r1; r2; r3; r4; r5; r6; r7] =>
      add (add (add r0 r1) (add r2 r3)) (add (add r4 r5) (add r6 r7))
  | _ => zero
  end.

(** A block of 8 to 128 elements: the accumulators start as the first
    eight elements, take the following groups of eight, are combined,
    and the elements left over are added one by one. *)
Definition block_sum (l : list A) : A :=
  let '(r, rest) := unrolled (length l / 8 - 1) (firstn 8 l) (skipn 8 l) in
  accumulate (combine_lanes r) rest.

(** Above 128 elements the run is cut at half its length, lowered to a
    multiple of 8.  The recursion is on [fuel], of which [pairwise_sum]
    gives enough ([pairwise_sum_from_enough]). *)
Fixpoint pairwise_sum_from (fuel : nat) (l : list A) : A :=
  let n := length l in
  if (n <? 8)%nat then accumulate zero l
  else if (n <=? 128)%nat then block_sum l
  else
    match fuel with
    | O => accumulate zero l
    | S fuel =>
        let n2 := (n / 2 - (n / 2) mod 8)%nat in
        add (pairwise_sum_from fuel (firstn n2 l))
            (pairwise_sum_from fuel (skipn n2 l))
    end.

Definition pairwise_sum (l : list A) : A := pairwise_sum_from (length l) l.

(** A reduction that converts its operand reads it through a buffer of
    8192 elements: each bufferful is summed pairwise and added to the
    running result, which starts as [zero]. *)
Fixpoint buffered_sum_from (fuel : nat) (res : A) (l : list A) : A :=
  match l, fuel with
  | [], _ | _, O => res
  | _, S fuel =>
      buffered_sum_from fuel (add res (pairwise_sum (firstn (64 * 128) l)))
                        (skipn (64 * 128) l)
  end.

Definition buffered_sum (l : list A) : A :=
  buffered_sum_from (length l) zero l.

(** A reduction that converts nothing hands the whole array to the
    loop. *)
Definition whole_sum (l : list A) : A := add zero (pairwise_sum l).

(** [sums l r]: [r] is obtained from the elements of [l], each used
    once, and copies of [zero], by additions in some order. *)
Inductive sums : list A -> A -> Prop :=
  | sums_zero : sums [] zero
  | sums_one x : sums [x] x
  | sums_add l1 l2 r1 r2 :
      sums l1 r1 -> sums l2 r2 -> sums (l1 ++ l2) (add r1 r2)
  | sums_perm l l' r : Permutation l l' -> sums l r -> sums l' r.

End PairwiseSum.

(* ------------------------------------------------------------------ *)
(** ** [float64] sums of integers *)

(** The [float64] nearest to the integer [z], ties to even: integers
    below [2^53] in magnitude are kept, larger ones keep 53 significant
    bits.  (An array has fewer than [2^63] elements, so no sum of
    converted [int64] values is near the overflow threshold [2^1024].) *)
Definition round_float64 (z : Z) : Z :=
  let a := Z.abs z in
  if a <? 2 ^ 53 then z
  else
    let e := Z.log2 a - 52 in
    let q := a / 2 ^ e in
    let r := a mod 2 ^ e in
    let q' := if (2 * r <? 2 ^ e) || ((2 * r =? 2 ^ e) && Z.even q)
              then q else q + 1 in
    Z.sgn z * (q' * 2 ^ e).

(** The sum of two integer-valued [float64]: the exact sum, rounded. *)
Definition add_float64 (x y : Z) : Z := round_float64 (x + y).

(** [wgt.sum(dtype=float64)] on [int64] weights, as the integer the
    resulting [float64] holds. *)
Definition weights_sum (w : list Z) : Z :=
  buffered_sum add_float64 0 (map round_float64 w).

(* ------------------------------------------------------------------ *)
(** ** Two-dimensional [int64] arrays *)

(** An array is the list of its rows.  The arrays of NumPy are the
    [rectangular] lists whose entries lie in the [int64] range; the
    function is defined on every list of rows, and the statements below
    say where they need more. *)
Definition ndarray : Type := list (list Z).

Definition shape0 (cm : ndarray) : nat := length cm.
Definition shape1 (cm : ndarray) : nat :=
  match cm with [] => 0%nat | r :: _ => length r end.

Definition rectangular (cm : ndarray) : bool :=
  forallb (fun r => Nat.eqb (length r) (shape1 cm)) cm.

Definition square (cm : ndarray) : bool :=
  rectangular cm && Nat.eqb (shape1 cm) (shape0 cm).

Definition nonneg (cm : ndarray) : bool :=
  forallb (forallb (Z.leb 0)) cm.


(** [cm[i, j]] *)
Definition getitem (cm : ndarray) (i j : nat) : result Z :=
  match nth_error cm i with
  | Some r => match nth_error r j with
              | Some x => Ok x
              | None => Raise IndexError
              end
  | None => Raise IndexError
  end.

(** [cm[i, :]] *)
Definition getrow (cm : ndarray) (i : nat) : result (list Z) :=
  match nth_error cm i with
  | Some r => Ok r
  | None => Raise IndexError
  end.

(** [cm[:, j]] *)
Fixpoint getcol (cm : ndarray) (j : nat) : result (list Z) :=
  match cm with
  | [] => Ok []
  | r :: rest =>
      match nth_error r j with
      | Some x => col ← getcol rest j; Ok (x :: col)
      | None => Raise IndexError
      end
  end.

(** The main diagonal, as [np.trace] walks it: [cm[i, i]] while both
    indices are in bounds. *)
Fixpoint diagonal_from (i : nat) (cm : ndarray) : list Z :=
  match cm with
  | [] => []
  | r :: rest =>
      match nth_error r i with
      | Some x => x :: diagonal_from (S i) rest
      | None => []
      end
  end.

Definition np_sum (cm : ndarray) : Z := sum64 (concat cm).
Definition np_sum_axis1 (cm : ndarray) : list Z := map sum64 cm.
Definition np_trace (cm : ndarray) : Z := sum64 (diagonal_from 0 cm).

(** [np.mean]: the sum over the count; not-a-number on an empty array. *)
Definition np_mean (a : list float64) : float64 :=
  fdiv (fsum a) (of_int (Z.of_nat (length a))).

(** [np.average(a, weights=w)]: the weights are converted and summed in
    [float64]; a zero sum raises, otherwise the weighted sum is divided
    by it.  The test [scl == 0.0] is taken on the [float64] sum itself,
    [weights_sum w]; in the quotient [scl] stands, like every [float64]
    value of this model, for the real number it approximates. *)
Definition np_average (a : list float64) (w : list Z) : result float64 :=
  if negb (Nat.eqb (length a) (length w)) then Raise TypeError
  else
    let wgt := map of_int w in
    let scl := fsum wgt in
    if weights_sum w =? 0 then Raise ZeroDivisionError
    else Ok (fdiv (fsum (zip_with fmul a wgt)) scl).

(* ------------------------------------------------------------------ *)
(** ** The result dictionary *)

(** [metrics['per_class']]: six parallel lists indexed by class. *)
Record PerClass : Type := {
  precision : list float64;
  recall : list float64;
  f1_score : list float64;
  balanced_accuracy : list float64;
  weighted_accuracy : list float64;
  mcc : list float64
}.

(** [metrics['overall']] *)
Record Overall : Type := {
  accuracy : float64;
  macro_precision : float64;
  macro_recall : float64;
  macro_f1_score : float64;
  macro_balanced_accuracy : float64;
  macro_weighted_accuracy : float64;
  macro_mcc : float64;
  weighted_precision : float64;
  weighted_recall : float64;
  weighted_f1_score : float64;
  weighted_balanced_accuracy : float64;
  weighted_weighted_accuracy : float64;
  weighted_mcc : float64
}.

Record Metrics : Type := {
  per_class : PerClass;
  overall : Overall
}.

(** The six values one iteration of the loop computes. *)
Record ClassMetrics : Type := {
  c_precision : float64;
  c_recall : float64;
  c_f1 : float64;
  c_balanced_accuracy : float64;
  c_weighted_accuracy : float64;
  c_mcc : float64
}.

Definition empty_per_class : PerClass :=
  {| precision := []; recall := []; f1_score := [];
     balanced_accuracy := []; weighted_accuracy := []; mcc := [] |}.

(** The six [append] calls that end the loop body. *)
Definition append_class (pc : PerClass) (m : ClassMetrics) : PerClass :=
  {| precision := precision pc ++ [c_precision m];
     recall := recall pc ++ [c_recall m];
     f1_score := f1_score pc ++ [c_f1 m];
     balanced_accuracy := balanced_accuracy pc ++ [c_balanced_accuracy m];
     weighted_accuracy := weighted_accuracy pc ++ [c_weighted_accuracy m];
     mcc := mcc pc ++ [c_mcc m] |}.

(* ------------------------------------------------------------------ *)
(** ** [calculate_classification_metrics] *)

(** Lines 85-105: the metrics of one class from its four counts. *)
Definition metrics_of_counts (tp fp fn tn : Z) : ClassMetrics :=
  let precision :=
    if Int64.add tp fp >? 0 then truediv tp (Int64.add tp fp) else of_int 0 in
  let recall :=
    if Int64.add tp fn >? 0 then truediv tp (Int64.add tp fn) else of_int 0 in
  let f1 :=
    if fgt (fadd precision recall) (of_int 0)
    then fdiv (fmul (of_int 2) (fmul precision recall)) (fadd precision recall)
    else of_int 0 in
  let sensitivity :=
    if Int64.add tp fn >? 0 then truediv tp (Int64.add tp fn) else of_int 0 in
  let specificity :=
    if Int64.add tn fp >? 0 then truediv tn (Int64.add tn fp) else of_int 0 in
  let balanced_accuracy := fdiv (fadd sensitivity specificity) (of_int 2) in
  let weighted_accuracy :=
    truediv (Int64.add tp tn)
            (Int64.add (Int64.add (Int64.add tp tn) fp) fn) in
  let mcc_denominator :=
    fsqrt (of_int (Int64.mul (Int64.mul (Int64.mul (Int64.add tp fp)
                                                   (Int64.add tp fn))
                                        (Int64.add tn fp))
                             (Int64.add tn fn))) in
  let mcc :=
    if fne mcc_denominator (of_int 0)
    then fdiv (of_int (Int64.sub (Int64.mul tp tn) (Int64.mul fp fn)))
              mcc_denominator
    else of_int 0 in
  {| c_precision := precision; c_recall := recall; c_f1 := f1;
     c_balanced_accuracy := balanced_accuracy;
     c_weighted_accuracy := weighted_accuracy; c_mcc := mcc |}.

(** Lines 73-105: the counts of class [class_idx], then its metrics. *)
Definition class_step (cm : ndarray) (total_samples : Z) (class_idx : nat)
  : result ClassMetrics :=
  tp ← getitem cm class_idx class_idx;
  col ← getcol cm class_idx;
  let fp := Int64.sub (sum64 col) tp in
  row ← getrow cm class_idx;
  let fn := Int64.sub (sum64 row) tp in
  let tn := Int64.sub total_samples (Int64.add (Int64.add tp fp) fn) in
  Ok (metrics_of_counts tp fp fn tn).

(** Lines 72-113: the loop over [range(num_classes)]. *)
Fixpoint class_loop (cm : ndarray) (total_samples : Z) (classes : list nat)
  (pc : PerClass) : result PerClass :=
  match classes with
  | [] => Ok pc
  | class_idx :: rest =>
      m ← class_step cm total_samples class_idx;
      class_loop cm total_samples rest (append_class pc m)
  end.

Definition calculate_classification_metrics (confusion_matrix : ndarray)
  : result Metrics :=
  let cm := confusion_matrix in
  let num_classes := shape0 cm in
  let total_samples := np_sum cm in
  let class_samples := np_sum_axis1 cm in
  let correct_predictions := np_trace cm in
  let accuracy := truediv correct_predictions total_samples in
  pc ← class_loop cm total_samples (seq 0 num_classes) empty_per_class;
  let precisions := precision pc in
  let recalls := recall pc in
  let f1_scores := f1_score pc in
  let balanced_accuracies := balanced_accuracy pc in
  let weighted_accuracies := weighted_accuracy pc in
  let mccs := mcc pc in
  w_precision ← np_average precisions class_samples;
  w_recall ← np_average recalls class_samples;
  w_f1_score ← np_average f1_scores class_samples;
  w_balanced_accuracy ← np_average balanced_accuracies class_samples;
  w_weighted_accuracy ← np_average weighted_accuracies class_samples;
  w_mcc ← np_average mccs class_samples;
  Ok {| per_class := pc;
        overall :=
          {| accuracy := accuracy;
             macro_precision := np_mean precisions;
             macro_recall := np_mean recalls;
             macro_f1_score := np_mean f1_scores;
             macro_balanced_accuracy := np_mean balanced_accuracies;
             macro_weighted_accuracy := np_mean weighted_accuracies;
             macro_mcc := np_mean mccs;
             weighted_precision := w_precision;
             weighted_recall := w_recall;
             weighted_f1_score := w_f1_score;
             weighted_balanced_accuracy := w_balanced_accuracy;
             weighted_weighted_accuracy := w_weighted_accuracy;
             weighted_mcc := w_mcc |} |}.

(* ------------------------------------------------------------------ *)
(** ** The caller's view: arrays in a store *)

(** Arrays live in a store; a call receives a reference.  [np.array]
    copies its argument into a fresh array, and every later access of
    the function goes to that copy, which it only reads. *)
Abbreviation loc := positive (only parsing).
Abbreviation store := (gmap positive ndarray) (only parsing).



(* ------------------------------------------------------------------ *)
(** ** The reference algorithm of the specification *)

(** Written from the specification's words (section 4.1), over the
    mathematical integers and the real numbers. *)
Module Spec.

Section Reference.

Variable matrix : list (list Z).

Definition entry (i j : nat) : Z := nth j (nth i matrix []) 0.
Definition row_sum (c : nat) : Z := zsum (nth c matrix []).
Definition column_sum (c : nat) : Z :=
  zsum (map (fun r => nth c r 0) matrix).
Definition total : Z := zsum (map zsum matrix).
Definition trace : Z :=
  zsum (map (fun i => entry i i) (seq 0 (length matrix))).

Definition tp (c : nat) : Z := entry c c.
Definition fp (c : nat) : Z := column_sum c - tp c.
Definition fn (c : nat) : Z := row_sum c - tp c.
Definition tn (c : nat) : Z := total - tp c - fp c - fn c.

Definition precision (c : nat) : R :=
  if 0 <? tp c + fp c then IZR (tp c) / IZR (tp c + fp c) else 0.
Definition recall (c : nat) : R :=
  if 0 <? tp c + fn c then IZR (tp c) / IZR (tp c + fn c) else 0.
Definition f1 (c : nat) : R :=
  if Rltb 0 (precision c + recall c)
  then 2 * precision c * recall c / (precision c + recall c)
  else 0.
Definition specificity (c : nat) : R :=
  if 0 <? tn c + fp c then IZR (tn c) / IZR (tn c + fp c) else 0.
Definition balanced_accuracy (c : nat) : R :=
  (recall c + specificity c) / 2.
Definition weighted_accuracy (c : nat) : R :=
  IZR (tp c + tn c) / IZR (tp c + tn c + fp c + fn c).
Definition mcc_denominator (c : nat) : R :=
  sqrt (IZR ((tp c + fp c) * (tp c + fn c) * (tn c + fp c) * (tn c + fn c))).
Definition mcc (c : nat) : R :=
  if Reqb (mcc_denominator c) 0 then 0
  else IZR (tp c * tn c - fp c * fn c) / mcc_denominator c.

Definition classes : list nat := seq 0 (length matrix).

(** [samples_c = sum(row c)] *)
Definition samples : list Z := map zsum matrix.

Definition accuracy : R := IZR trace / IZR total.

End Reference.

(** [macro_X]: the arithmetic mean over classes. *)
Definition macro (xs : list float64) : float64 :=
  fdiv (fsum xs) (of_int (Z.of_nat (length xs))).

(** [weighted_X = sum(X_c * samples_c) / sum(samples_c)] *)
Definition weighted (xs : list float64) (samples : list Z) : float64 :=
  fdiv (fsum (zip_with fmul xs (map of_int samples)))
       (fsum (map of_int samples)).

End Spec.

(* ------------------------------------------------------------------ *)
(** ** What a successful call returns *)

(** The loop body at an index that is in bounds. *)
Definition class_values (cm : ndarray) (total_samples : Z) (c : nat)
  : ClassMetrics :=
  let tp := Spec.entry cm c c in
  let fp := Int64.sub (sum64 (map (fun r => nth c r 0) cm)) tp in
  let fn := Int64.sub (sum64 (nth c cm [])) tp in
  let tn := Int64.sub total_samples (Int64.add (Int64.add tp fp) fn) in
  metrics_of_counts tp fp fn tn.

(** The six lists after the loop has appended the values [ms]. *)
Definition lists_of (ms : list ClassMetrics) : PerClass :=
  {| precision := map c_precision ms;
     recall := map c_recall ms;
     f1_score := map c_f1 ms;
     balanced_accuracy := map c_balanced_accuracy ms;
     weighted_accuracy := map c_weighted_accuracy ms;
     mcc := map c_mcc ms |}.

Definition per_class_of (cm : ndarray) : PerClass :=
  lists_of (map (class_values cm (np_sum cm)) (seq 0 (shape0 cm))).

(** [np.average] when it does not raise. *)
Definition average_of (a : list float64) (w : list Z) : float64 :=
  fdiv (fsum (zip_with fmul a (map of_int w))) (of_int (zsum w)).

(** The aggregates over the six lists [pc]. *)
Definition overall_from (cm : ndarray) (pc : PerClass) : Overall :=
  let w := np_sum_axis1 cm in
  {| accuracy := truediv (np_trace cm) (np_sum cm);
     macro_precision := np_mean (precision pc);
     macro_recall := np_mean (recall pc);
     macro_f1_score := np_mean (f1_score pc);
     macro_balanced_accuracy := np_mean (balanced_accuracy pc);
     macro_weighted_accuracy := np_mean (weighted_accuracy pc);
     macro_mcc := np_mean (mcc pc);
     weighted_precision := average_of (precision pc) w;
     weighted_recall := average_of (recall pc) w;
     weighted_f1_score := average_of (f1_score pc) w;
     weighted_balanced_accuracy := average_of (balanced_accuracy pc) w;
     weighted_weighted_accuracy := average_of (weighted_accuracy pc) w;
     weighted_mcc := average_of (mcc pc) w |}.

Definition overall_of (cm : ndarray) : Overall :=
  overall_from cm (per_class_of cm).

Definition metrics_of (cm : ndarray) : Metrics :=
  {| per_class := per_class_of cm; overall := overall_of cm |}.

(* ------------------------------------------------------------------ *)
(** ** Ranges in which [int64] arithmetic is exact *)

(** Four non-negative counts whose total is representable: the sums of
    the loop body are exact. *)
Definition counts_rep (tp fp fn tn : Z) : Prop :=
  0 <= tp /\ 0 <= fp /\ 0 <= fn /\ 0 <= tn /\
  tp + fp + fn + tn <= Int64.max_int.

(** Four non-negative counts whose total [n] satisfies [n^4 < 2^63]:
    no sum or product of the loop body leaves the [int64] range. *)
Definition counts_ok (tp fp fn tn : Z) : Prop :=
  0 <= tp /\ 0 <= fp /\ 0 <= fn /\ 0 <= tn /\
  (tp + fp + fn + tn) ^ 4 <= Int64.max_int.

(** The same condition on a matrix, as a check. *)
Definition small_total (cm : ndarray) : bool :=
  Spec.total cm ^ 4 <=? Int64.max_int.

(** The total sample count is representable in [int64]. *)
Definition representable_total (cm : ndarray) : bool :=
  Spec.total cm <=? Int64.max_int.

(* ------------------------------------------------------------------ *)
(** ** Matrices used below *)

(** The first example matrix of the script. *)
Definition SCALAR_cm : ndarray :=
  [ [262; 12; 23; 0; 4; 3; 0; 2; 0; 0];
    [3; 77; 6; 0; 0; 0; 1; 0; 0; 0];
    [58; 10; 286; 2; 2; 0; 12; 2; 1; 1];
    [0; 0; 0; 43; 0; 0; 0; 0; 0; 0];
    [2; 0; 2; 0; 71; 1; 0; 0; 0; 0];
    [1; 0; 0; 0; 0; 6; 0; 0; 0; 1];
    [8; 1; 11; 1; 0; 0; 36; 0; 0; 0];
    [3; 0; 0; 0; 0; 2; 0; 45; 0; 0];
    [4; 1; 4; 0; 0; 0; 0; 0; 55; 0];
    [1; 0; 3; 0; 0; 0; 0; 0; 0; 7] ].

Definition zero_1x1 : ndarray := [ [0] ].
Definition zero_2x2 : ndarray := [ [0; 0]; [0; 0] ].
Definition perfect_2x2 : ndarray := [ [2; 0]; [0; 2] ].
Definition total_confusion : ndarray := [ [0; 1]; [1; 0] ].
Definition idle_class : ndarray := [ [3; 1; 0]; [2; 4; 0]; [0; 0; 0] ].
Definition tall_3x2 : ndarray := [ [1; 2]; [3; 4]; [5; 6] ].

(** 400000 samples spread evenly over two classes. *)
Definition large_uniform : ndarray :=
  [ [100000; 100000]; [100000; 100000] ].


(** A first row whose sum is [2^63]. *)
Definition huge_row : ndarray :=
  [ [4611686018427387904; 4611686018427387904]; [0; 1] ].

(* ------------------------------------------------------------------ *)
(** ** The other two example matrices of the script *)

Definition flair_cm : ndarray :=
  [
    [295; 22; 219; 1; 2; 2; 39; 2; 0; 0];
    [11; 61; 12; 0; 0; 0; 0; 0; 1; 0];
    [9; 17; 74; 0; 0; 1; 1; 21; 0; 0];
    [3; 0; 3; 45; 1; 0; 1; 0; 0; 0];
    [7; 0; 12; 0; 71; 1; 1; 0; 0; 3];
    [6; 0; 4; 0; 3; 8; 0; 3; 0; 1];
    [0; 0; 0; 0; 0; 0; 0; 0; 0; 0];
    [2; 0; 1; 0; 0; 0; 2; 23; 0; 0];
    [5; 1; 7; 0; 0; 0; 3; 0; 55; 0];
    [1; 0; 2; 0; 0; 0; 0; 0; 0; 5] ].

Definition ensemble_cm : ndarray :=
  [
    [242; 7; 22; 0; 4; 6; 10; 0; 0; 1];
    [8; 60; 4; 0; 1; 0; 7; 1; 0; 0];
    [72; 29; 297; 2; 10; 3; 17; 25; 4; 1];
    [0; 0; 0; 40; 1; 0; 0; 0; 0; 0];
    [6; 0; 3; 4; 58; 0; 0; 3; 0; 2];
    [1; 4; 0; 0; 0; 3; 2; 0; 0; 0];
    [2; 1; 5; 0; 0; 0; 8; 0; 0; 0];
    [4; 0; 1; 0; 0; 0; 3; 20; 0; 0];
    [5; 0; 2; 0; 0; 0; 2; 0; 52; 0];
    [2; 0; 1; 0; 3; 0; 0; 0; 0; 5] ].


(** Every entry is zero. *)
Definition all_zero (cm : ndarray) : bool :=
  forallb (forallb (Z.eqb 0)) cm.


(** The array with rows and columns exchanged. *)
Definition transpose (cm : ndarray) : ndarray :=
  map (fun j => map (fun r => nth j r 0) cm) (seq 0 (shape1 cm)).

(* ------------------------------------------------------------------ *)
(** ** [print_metrics] *)

Definition CLASS_LABELS : list string :=
  [ "N (Noun)";
    "V (Verb)";
    "NM (Noun Modifier)";
    "D (Determiner)";
    "P (Preposition)";
    "VM (Verb Modifier)";
    "PRE (Prefix)";
    "DT (Determiner Type)";
    "NPL (Noun Plural)";
    "CJ (Conjunction)" ]%string.

(** The text that follows a blank line. *)
Definition after_newline (s : string) : string :=
  String (Ascii.ascii_of_nat 10) s.

Section Printing.

(** [f"{x:.4f}"]: the text of a number with four decimals.  How a
    [float64] is written out is outside the numeric model; the function
    is taken as given. *)
Variable format_4f : float64 -> string.

(** The seven [print] calls of one iteration. *)
Definition class_block (label : string)
  (v : float64 * (float64 * (float64 * (float64 * (float64 * float64)))))
  : list string :=
  let '(p, (r, (f1, (ba, (wa, mcc))))) := v in
  [ "  " +:+ label +:+ ":";
    "    Precision:          " +:+ format_4f p;
    "    Recall:             " +:+ format_4f r;
    "    F1 Score:           " +:+ format_4f f1;
    "    Balanced Accuracy:  " +:+ format_4f ba;
    "    Weighted Accuracy:  " +:+ format_4f wa;
    "    Matthews Corr Coef: " +:+ format_4f mcc ]%string.

(** Lines 164-178: the loop over [enumerate(zip(...))], from index [i];
    [out] is what has been printed so far, one string per [print]. *)
Fixpoint print_classes (i : nat)
  (rows : list (float64 * (float64 * (float64 * (float64
                 * (float64 * float64))))))
  (out : list string) : list string * result unit :=
  match rows with
  | [] => (out, Ok tt)
  | v :: rest =>
      match nth_error CLASS_LABELS i with
      | Some label => print_classes (S i) rest (out ++ class_block label v)
      | None => (out, Raise IndexError)
      end
  end.

(** The tuple [zip] yields for one class. *)
Definition class_tuple (m : ClassMetrics)
  : float64 * (float64 * (float64 * (float64 * (float64 * float64)))) :=
  (c_precision m, (c_recall m, (c_f1 m, (c_balanced_accuracy m,
     (c_weighted_accuracy m, c_mcc m))))).

(** [zip] of the six per-class lists: as long as the shortest. *)
Definition zip_per_class (pc : PerClass)
  : list (float64 * (float64 * (float64 * (float64
            * (float64 * float64))))) :=
  combine (precision pc)
    (combine (recall pc)
       (combine (f1_score pc)
          (combine (balanced_accuracy pc)
             (combine (weighted_accuracy pc) (mcc pc))))).

(** The three [print] calls before the loop. *)
Definition report_head (o : Overall) : list string :=
  [ "Overall Metrics:";
    "    Accuracy:               " +:+ format_4f (accuracy o);
    after_newline "Per-Class Metrics:" ]%string.

(** The fifteen [print] calls after the loop. *)
Definition report_tail (o : Overall) : list string :=
  [ after_newline "Overall Metrics:";
    "  Macro Averaging:";
    "    Macro Precision:          " +:+ format_4f (macro_precision o);
    "    Macro Recall:             " +:+ format_4f (macro_recall o);
    "    Macro F1 Score:           " +:+ format_4f (macro_f1_score o);
    "    Macro Balanced Accuracy:  "
      +:+ format_4f (macro_balanced_accuracy o);
    "    Macro Weighted Accuracy:  "
      +:+ format_4f (macro_weighted_accuracy o);
    "    Macro Matthews Corr Coef: " +:+ format_4f (macro_mcc o);
    after_newline "  Weighted Averaging:";
    "    Weighted Precision:          " +:+ format_4f (weighted_precision o);
    "    Weighted Recall:             " +:+ format_4f (weighted_recall o);
    "    Weighted F1 Score:           " +:+ format_4f (weighted_f1_score o);
    "    Weighted Balanced Accuracy:  "
      +:+ format_4f (weighted_balanced_accuracy o);
    "    Weighted Accuracy:           "
      +:+ format_4f (weighted_weighted_accuracy o);
    "    Weighted Matthews Corr Coef: " +:+ format_4f (weighted_mcc o)
  ]%string.

Definition print_metrics (metrics : Metrics) (out : list string)
  : list string * result unit :=
  let out := out ++ report_head (overall metrics) in
  match print_classes 0 (zip_per_class (per_class metrics)) out with
  | (out, Ok _) => (out ++ report_tail (overall metrics), Ok tt)
  | (out, Raise e) => (out, Raise e)
  end.

(** Lines 236-247: the three matrices are computed first, then each
    title and report is printed. *)
Definition script (out : list string) : list string * result unit :=
  match calculate_classification_metrics SCALAR_cm with
  | Raise e => (out, Raise e)
  | Ok scalar_metrics =>
  match calculate_classification_metrics flair_cm with
  | Raise e => (out, Raise e)
  | Ok flair_metrics =>
  match calculate_classification_metrics ensemble_cm with
  | Raise e => (out, Raise e)
  | Ok ensemble_metrics =>
  match print_metrics scalar_metrics (out ++ ["Scalar: "%string]) with
  | (out, Raise e) => (out, Raise e)
  | (out, Ok _) =>
  match print_metrics flair_metrics (out ++ ["Flair"%string]) with
  | (out, Raise e) => (out, Raise e)
  | (out, Ok _) => print_metrics ensemble_metrics (out ++ ["ensemble"%string])
  end end end end end.

End Printing.

(* ------------------------------------------------------------------ *)
(** ** The report of the specification *)

(** Section 4.2 of the specification, [format(result, classLabels)]:
    the text of the report as a function of the result and of the class
    labels, which are a parameter here.  It is the overall accuracy,
    then one block per class (its label and its six metrics), then the
    macro-averaged block, then the weighted-averaged block, every number
    with four decimals.  One string stands for one line (the strings
    that start with a line feed are preceded by a blank line); the
    wording of the lines is the script's. *)
Module Report.

Definition newline : string := String (Ascii.ascii_of_nat 10) EmptyString.

Section Format.

Variable format_4f : float64 -> string.
Variable classLabels : list string.
Variable result : Metrics.

(** The number of classes of the result. *)
Definition num_classes : nat := length (precision (per_class result)).

(** Metric [xs] of class [c], with four decimals. *)
Definition of_class (xs : PerClass -> list float64) (c : nat) : string :=
  format_4f (nth c (xs (per_class result)) NaN).

Definition overall_block : list string :=
  [ "Overall Metrics:";
    "    Accuracy:               " +:+ format_4f (accuracy (overall result))
  ]%string.

Definition class_lines (c : nat) : list string :=
  [ "  " +:+ nth c classLabels EmptyString +:+ ":";
    "    Precision:          " +:+ of_class precision c;
    "    Recall:             " +:+ of_class recall c;
    "    F1 Score:           " +:+ of_class f1_score c;
    "    Balanced Accuracy:  " +:+ of_class balanced_accuracy c;
    "    Weighted Accuracy:  " +:+ of_class weighted_accuracy c;
    "    Matthews Corr Coef: " +:+ of_class mcc c ]%string.

Definition per_class_block : list string :=
  (newline +:+ "Per-Class Metrics:")%string
  :: concat (map class_lines (seq 0 num_classes)).

Definition macro_block : list string :=
  [ newline +:+ "Overall Metrics:";
    "  Macro Averaging:";
    "    Macro Precision:          "
      +:+ format_4f (macro_precision (overall result));
    "    Macro Recall:             "
      +:+ format_4f (macro_recall (overall result));
    "    Macro F1 Score:           "
      +:+ format_4f (macro_f1_score (overall result));
    "    Macro Balanced Accuracy:  "
      +:+ format_4f (macro_balanced_accuracy (overall result));
    "    Macro Weighted Accuracy:  "
      +:+ format_4f (macro_weighted_accuracy (overall result));
    "    Macro Matthews Corr Coef: "
      +:+ format_4f (macro_mcc (overall result)) ]%string.

Definition weighted_block : list string :=
  [ newline +:+ "  Weighted Averaging:";
    "    Weighted Precision:          "
      +:+ format_4f (weighted_precision (overall result));
    "    Weighted Recall:             "
      +:+ format_4f (weighted_recall (overall result));
    "    Weighted F1 Score:           "
      +:+ format_4f (weighted_f1_score (overall result));
    "    Weighted Balanced Accuracy:  "
      +:+ format_4f (weighted_balanced_accuracy (overall result));
    "    Weighted Accuracy:           "
      +:+ format_4f (weighted_weighted_accuracy (overall result));
    "    Weighted Matthews Corr Coef: "
      +:+ format_4f (weighted_mcc (overall result)) ]%string.

Definition text : list string :=
  overall_block ++ per_class_block ++ macro_block ++ weighted_block.

End Format.

End Report.

(* ------------------------------------------------------------------ *)
(** ** Integer lemmas *)

Lemma wrap_in_range z : Int64.in_range z -> Int64.wrap z = z.
Proof.
  unfold Int64.in_range, Int64.min_int, Int64.max_int, Int64.wrap.
  intros H. rewrite Z.mod_small; lia.
Qed.

Lemma zsum_nonneg l : Forall (Z.le 0) l -> 0 <= zsum l.
Proof. induction 1; simpl; lia. Qed.

Lemma zsum_app l1 l2 : zsum (l1 ++ l2) = zsum l1 + zsum l2.
Proof. induction l1; simpl; lia. Qed.

Lemma zsum_concat (cm : list (list Z)) : zsum (concat cm) = zsum (map zsum cm).
Proof. induction cm; simpl; rewrite ?zsum_app; lia. Qed.

Lemma nth_le_zsum l c : Forall (Z.le 0) l -> 0 <= nth c l 0 <= zsum l.
Proof.
  intros H. revert c. induction H as [|x l Hx Hl IH]; intros [|c]; simpl; try lia.
  - pose proof (zsum_nonneg l Hl). lia.
  - specialize (IH c). lia.
Qed.

Lemma sum64_exact l :
  Forall (Z.le 0) l -> zsum l <= Int64.max_int -> sum64 l = zsum l.
Proof.
  induction 1 as [|x l Hx Hl IH]; simpl; intros Hb; [reflexivity|].
  pose proof (zsum_nonneg l Hl).
  rewrite IH by lia. unfold Int64.add. apply wrap_in_range.
  unfold Int64.in_range, Int64.min_int in *. lia.
Qed.

Lemma zsum_map_sub {A} (f g : A -> Z) l :
  zsum (map (fun a => f a - g a) l) = zsum (map f l) - zsum (map g l).
Proof. induction l; simpl; lia. Qed.

(* ------------------------------------------------------------------ *)
(** ** Indexing *)

Lemma rectangular_rows cm r :
  rectangular cm = true -> In r cm -> length r = shape1 cm.
Proof.
  unfold rectangular. rewrite forallb_forall. intros H Hr.
  apply Nat.eqb_eq. exact (H r Hr).
Qed.

Lemma getcol_ok cm c :
  (forall r, In r cm -> (c < length r)%nat) ->
  getcol cm c = Ok (map (fun r => nth c r 0) cm).
Proof.
  induction cm as [|r cm IH]; simpl; intros H; [reflexivity|].
  destruct (nth_error r c) as [x|] eqn:E.
  - rewrite IH by (intros; apply H; auto).
    simpl. unfold mbind, result_bind.
    rewrite (nth_error_nth _ _ 0 E). reflexivity.
  - apply nth_error_None in E. specialize (H r (or_introl eq_refl)). lia.
Qed.

Lemma getrow_ok cm c :
  (c < length cm)%nat -> getrow cm c = Ok (nth c cm []).
Proof.
  intros H. unfold getrow.
  destruct (nth_error cm c) as [r|] eqn:E.
  - rewrite (nth_error_nth _ _ [] E). reflexivity.
  - apply nth_error_None in E. lia.
Qed.

Lemma getitem_ok cm c :
  (c < length cm)%nat -> (forall r, In r cm -> (c < length r)%nat) ->
  getitem cm c c = Ok (Spec.entry cm c c).
Proof.
  intros Hc H. unfold getitem, Spec.entry.
  destruct (nth_error cm c) as [r|] eqn:E.
  - rewrite (nth_error_nth _ _ [] E).
    specialize (H r (nth_error_In _ _ E)).
    destruct (nth_error r c) as [x|] eqn:E'.
    + rewrite (nth_error_nth _ _ 0 E'). reflexivity.
    + apply nth_error_None in E'. lia.
  - apply nth_error_None in E. lia.
Qed.


(* ------------------------------------------------------------------ *)
(** ** The loop *)

Lemma class_step_ok cm total_samples c :
  (c < length cm)%nat -> (forall r, In r cm -> (c < length r)%nat) ->
  class_step cm total_samples c = Ok (class_values cm total_samples c).
Proof.
  intros Hc H. unfold class_step.
  rewrite getitem_ok, getcol_ok, getrow_ok by assumption.
  reflexivity.
Qed.

Lemma append_classes pc ms :
  fold_left append_class ms pc =
  {| precision := precision pc ++ map c_precision ms;
     recall := recall pc ++ map c_recall ms;
     f1_score := f1_score pc ++ map c_f1 ms;
     balanced_accuracy := balanced_accuracy pc ++ map c_balanced_accuracy ms;
     weighted_accuracy := weighted_accuracy pc ++ map c_weighted_accuracy ms;
     mcc := mcc pc ++ map c_mcc ms |}.
Proof.
  revert pc. induction ms as [|m ms IH]; intros pc; simpl.
  - destruct pc; simpl. rewrite !app_nil_r. reflexivity.
  - rewrite IH. simpl. rewrite <- !app_assoc. reflexivity.
Qed.

Lemma class_loop_ok cm total_samples cs pc :
  (forall c, In c cs ->
     (c < length cm)%nat /\ forall r, In r cm -> (c < length r)%nat) ->
  class_loop cm total_samples cs pc =
  Ok (fold_left append_class (map (class_values cm total_samples) cs) pc).
Proof.
  revert pc. induction cs as [|c cs IH]; intros pc H; simpl; [reflexivity|].
  destruct (H c (or_introl eq_refl)) as [Hc Hr].
  rewrite class_step_ok by assumption. simpl.
  apply IH. intros c' Hc'. apply H. right. exact Hc'.
Qed.


Lemma class_loop_square cm :
  rectangular cm = true -> (shape0 cm <= shape1 cm)%nat ->
  class_loop cm (np_sum cm) (seq 0 (shape0 cm)) empty_per_class =
  Ok (per_class_of cm).
Proof.
  intros Hrect Hle. rewrite class_loop_ok.
  - rewrite append_classes. reflexivity.
  - intros c Hc. apply in_seq in Hc. unfold shape0 in *. split; [lia|].
    intros r Hr. rewrite (rectangular_rows cm r Hrect Hr). lia.
Qed.


(* ------------------------------------------------------------------ *)
(** ** Floating-point lemmas *)

Lemma Rltb_true x y : (x < y)%R -> Rltb x y = true.
Proof. intros H. unfold Rltb. destruct (Rlt_dec x y); [reflexivity|contradiction]. Qed.

Lemma Rltb_false x y : ~ (x < y)%R -> Rltb x y = false.
Proof. intros H. unfold Rltb. destruct (Rlt_dec x y); [contradiction|reflexivity]. Qed.

Lemma Reqb_true x y : x = y -> Reqb x y = true.
Proof. intros H. unfold Reqb. destruct (Req_dec_T x y); [reflexivity|contradiction]. Qed.

Lemma Reqb_false x y : x <> y -> Reqb x y = false.
Proof. intros H. unfold Reqb. destruct (Req_dec_T x y); [contradiction|reflexivity]. Qed.

Lemma fdiv_fin x y : y <> 0%R -> fdiv (Fin x) (Fin y) = Fin (x / y).
Proof. intros H. simpl. rewrite Reqb_false by assumption. reflexivity. Qed.

Lemma truediv_fin a b : b <> 0 -> truediv a b = Fin (IZR a / IZR b).
Proof.
  intros H. unfold truediv, of_int. apply fdiv_fin.
  intros E. apply eq_IZR in E. contradiction.
Qed.

Lemma fsum_of_int w : fsum (map of_int w) = of_int (zsum w).
Proof.
  induction w as [|x w IH]; [reflexivity|].
  change (fadd (of_int x) (fsum (map of_int w)) = of_int (x + zsum w)).
  rewrite IH. unfold of_int. simpl. rewrite plus_IZR. reflexivity.
Qed.

Lemma feq_of_int_zero z : feq (of_int z) (Fin 0) = Z.eqb z 0.
Proof.
  unfold of_int. simpl. destruct (Z.eqb_spec z 0) as [->|Hz].
  - apply Reqb_true. reflexivity.
  - apply Reqb_false. intros E. apply eq_IZR in E. contradiction.
Qed.

(* ------------------------------------------------------------------ *)
(** ** Sums in NumPy's order *)

Section PairwiseSumLemmas.

Context {A : Type} (add : A -> A -> A) (zero : A).

Local Abbreviation accumulate := (accumulate add).
Local Abbreviation unrolled := (unrolled add).
Local Abbreviation combine_lanes := (combine_lanes add zero).
Local Abbreviation block_sum := (block_sum add zero).
Local Abbreviation pairwise_sum_from := (pairwise_sum_from add zero).
Local Abbreviation pairwise_sum := (pairwise_sum add zero).
Local Abbreviation buffered_sum_from := (buffered_sum_from add zero).
Local Abbreviation buffered_sum := (buffered_sum add zero).
Local Abbreviation sums := (sums add zero).

Lemma accumulate_sums l0 res l :
  sums l0 res -> sums (l0 ++ l) (accumulate res l).
Proof.
  revert l0 res. induction l as [|x l IH]; intros l0 res H; simpl.
  - rewrite app_nil_r. exact H.
  - replace (l0 ++ x :: l) with ((l0 ++ [x]) ++ l)
      by (rewrite <- app_assoc; reflexivity).
    apply IH. apply sums_add; [exact H|apply sums_one].
Qed.

Lemma lanes_step (ls : list (list A)) (r c : list A) :
  Forall2 sums ls r -> length c = length r ->
  exists ls', Forall2 sums ls' (zip_with add r c) /\
              Permutation (concat ls') (concat ls ++ c).
Proof.
  intros H. revert c. induction H as [|l x ls r Hx Hr IH]; intros c Hc.
  - destruct c; [|discriminate]. exists []. split; [constructor|reflexivity].
  - destruct c as [|y c]; [discriminate|]. injection Hc as Hc.
    destruct (IH c Hc) as (ls' & Hls' & Hp).
    exists ((l ++ [y]) :: ls'). split.
    + cbn [zip_with]. constructor; [|exact Hls'].
      apply sums_add; [exact Hx|apply sums_one].
    + cbn [concat]. rewrite Hp.
      rewrite <- !app_assoc. apply Permutation_app_head.
      cbn [app]. rewrite Permutation_middle. reflexivity.
Qed.

Lemma unrolled_sums k : forall (ls : list (list A)) (r l : list A),
  Forall2 sums ls r -> (8 * k <= length l)%nat -> length r = 8%nat ->
  exists ls' ,
    Forall2 sums ls' (fst (unrolled k r l)) /\
    length (fst (unrolled k r l)) = 8%nat /\
    Permutation (concat ls' ++ snd (unrolled k r l)) (concat ls ++ l).
Proof.
  induction k as [|k IH]; intros ls r l H Hk Hr.
  - exists ls. simpl. auto.
  - cbn [unrolled].
    assert (length (firstn 8 l) = length r) as Hc
      by (rewrite length_firstn; lia).
    destruct (lanes_step ls r (firstn 8 l) H Hc) as (ls1 & H1 & P1).
    destruct (IH ls1 (zip_with add r (firstn 8 l)) (skipn 8 l) H1) as
      (ls' & H' & L' & P').
    + rewrite length_skipn. lia.
    + rewrite length_zip_with. lia.
    + exists ls'. split; [exact H'|]. split; [exact L'|].
      rewrite P', P1, <- app_assoc, firstn_skipn. reflexivity.
Qed.

Lemma combine_lanes_sums (ls : list (list A)) (r : list A) :
  Forall2 sums ls r -> length r = 8%nat ->
  sums (concat ls) (combine_lanes r).
Proof.
  intros H Hr.
  do 8 (destruct H as [|? ? ? ? ? H]; [discriminate|]).
  destruct H; [|discriminate].
  cbn [combine_lanes concat].
  eapply sums_perm; [|repeat apply sums_add; eassumption].
  rewrite app_nil_r, <- !app_assoc. reflexivity.
Qed.

Lemma singletons_sums (l : list A) : Forall2 sums (map (fun x => [x]) l) l.
Proof. induction l; constructor; [apply sums_one|assumption]. Qed.

Lemma concat_singletons (l : list A) : concat (map (fun x => [x]) l) = l.
Proof.
  induction l as [|x t IHt]; [reflexivity|].
  cbn [map concat app]. rewrite IHt. reflexivity.
Qed.

Lemma block_sum_sums l : (8 <= length l)%nat -> sums l (block_sum l).
Proof.
  intros Hl. unfold block_sum.
  pose proof (singletons_sums (firstn 8 l)) as H0.
  destruct (unrolled_sums (length l / 8 - 1) _ (firstn 8 l) (skipn 8 l) H0)
    as (ls' & H' & L' & P').
  - rewrite length_skipn.
    pose proof (Nat.div_mod_eq (length l) 8). lia.
  - rewrite length_firstn. lia.
  - destruct (unrolled (length l / 8 - 1) (firstn 8 l) (skipn 8 l))
      as [r rest]. cbn [fst snd] in *.
    eapply sums_perm;
      [|apply (accumulate_sums _ _ rest (combine_lanes_sums ls' r H' L'))].
    rewrite P', concat_singletons, firstn_skipn. reflexivity.
Qed.

Lemma pairwise_sum_from_sums fuel : forall l, sums l (pairwise_sum_from fuel l).
Proof.
  induction fuel as [|fuel IH]; intros l; cbn [pairwise_sum_from];
    destruct (Nat.ltb_spec (length l) 8);
    try (apply (accumulate_sums [] zero l (sums_zero add zero)));
    destruct (Nat.leb_spec (length l) 128);
    try (apply block_sum_sums; lia).
  - apply (accumulate_sums [] zero l (sums_zero add zero)).
  - rewrite <- (firstn_skipn (length l / 2 - (length l / 2) mod 8) l) at 1.
    apply sums_add; apply IH.
Qed.

Lemma pairwise_sum_sums l : sums l (pairwise_sum l).
Proof. apply pairwise_sum_from_sums. Qed.

Lemma buffered_sum_from_enough fuel : forall res l,
  (length l <= fuel)%nat ->
  forall l0, sums l0 res -> sums (l0 ++ l) (buffered_sum_from fuel res l).
Proof.
  induction fuel as [|fuel IH]; intros res l Hf l0 H.
  - destruct l; [|simpl in Hf; lia]. simpl. rewrite app_nil_r. exact H.
  - destruct l as [|x l]; [simpl; rewrite app_nil_r; exact H|].
    cbn [buffered_sum_from].
    rewrite <- (firstn_skipn (64 * 128) (x :: l)) at 1.
    rewrite app_assoc. apply IH.
    + rewrite length_skipn. simpl in Hf |- *. lia.
    + apply sums_add; [exact H|apply pairwise_sum_sums].
Qed.

Lemma buffered_sum_sums l : sums l (buffered_sum l).
Proof.
  apply (buffered_sum_from_enough (length l) zero l (Nat.le_refl _) []).
  apply (sums_zero add zero).
Qed.

(** The recursion of [pairwise_sum] never runs out of fuel. *)
Lemma pairwise_sum_from_enough fuel : forall fuel' l,
  (length l <= fuel)%nat -> (length l <= fuel')%nat ->
  pairwise_sum_from fuel l = pairwise_sum_from fuel' l.
Proof.
  induction fuel as [|fuel IH]; intros fuel' l H H';
    destruct fuel' as [|fuel']; cbn [pairwise_sum_from]; try reflexivity;
    destruct (Nat.ltb_spec (length l) 8); try reflexivity;
    destruct (Nat.leb_spec (length l) 128); try reflexivity; try lia.
  pose proof (Nat.div_mod_eq (length l) 2) as E2.
  pose proof (Nat.mod_upper_bound (length l) 2 ltac:(lia)) as B2.
  pose proof (Nat.mod_upper_bound (length l / 2) 8 ltac:(lia)) as B8.
  f_equal; apply IH; rewrite ?length_firstn, ?length_skipn; lia.
Qed.

Lemma buffered_sum_from_fuel fuel : forall fuel' res l,
  (length l <= fuel)%nat -> (length l <= fuel')%nat ->
  buffered_sum_from fuel res l = buffered_sum_from fuel' res l.
Proof.
  induction fuel as [|fuel IH]; intros fuel' res l H H';
    destruct fuel' as [|fuel']; destruct l as [|x l];
    cbn [buffered_sum_from]; try reflexivity; try (simpl in *; lia).
  apply IH; rewrite length_skipn; simpl in *; lia.
Qed.

End PairwiseSumLemmas.

Lemma round_float64_sign z :
  (0 < z -> 0 < round_float64 z) /\ (z < 0 -> round_float64 z < 0) /\
  (z = 0 -> round_float64 z = 0).
Proof.
  unfold round_float64.
  destruct (Z.ltb_spec (Z.abs z) (2 ^ 53)) as [Hs|Hb]; [lia|].
  assert (0 < Z.abs z) as Ha by lia.
  destruct (Z.log2_spec (Z.abs z) Ha) as [L1 L2].
  assert (53 <= Z.log2 (Z.abs z)) as He.
  { apply Z.log2_le_pow2; [exact Ha|exact Hb]. }
  set (e := Z.log2 (Z.abs z) - 52) in *.
  assert (0 < 2 ^ e) as Hp by (apply Z.pow_pos_nonneg; lia).
  assert (2 ^ e <= Z.abs z) as Hle.
  { etransitivity; [|exact L1]. apply Z.pow_le_mono_r; lia. }
  assert (0 < Z.abs z / 2 ^ e) as Hq by (apply Z.div_str_pos; lia).
  assert (forall q', 0 < q' -> 0 < q' * 2 ^ e) as Hm
    by (intros q' Hq'; apply Z.mul_pos_pos; assumption).
  match goal with
  | |- context [if ?c then _ else _] => destruct c
  end.
  - specialize (Hm _ Hq). repeat split; intros Hz.
    + rewrite (Z.sgn_pos z) by exact Hz. lia.
    + rewrite (Z.sgn_neg z) by exact Hz. lia.
    + subst z. simpl in Hb. lia.
  - specialize (Hm (Z.abs z / 2 ^ e + 1) ltac:(lia)). repeat split; intros Hz.
    + rewrite (Z.sgn_pos z) by exact Hz. lia.
    + rewrite (Z.sgn_neg z) by exact Hz. lia.
    + subst z. simpl in Hb. lia.
Qed.

Lemma add_float64_nonneg x y :
  0 <= x -> 0 <= y ->
  0 <= add_float64 x y /\ (add_float64 x y = 0 <-> x = 0 /\ y = 0).
Proof.
  intros Hx Hy. unfold add_float64.
  destruct (round_float64_sign (x + y)) as (Hp & _ & Hz).
  destruct (Z.eq_dec (x + y) 0) as [E|E].
  - rewrite (Hz E). split; [lia|]. split; [lia|reflexivity].
  - specialize (Hp ltac:(lia)). split; [lia|]. split; lia.
Qed.

Lemma sums_nonneg l r :
  sums add_float64 0 l r -> Forall (Z.le 0) l ->
  0 <= r /\ (r = 0 <-> Forall (eq 0) l).
Proof.
  induction 1 as [|x|l1 l2 r1 r2 H1 IH1 H2 IH2|l l' r Hp H IH]; intros Hl.
  - split; [lia|]. split; auto.
  - apply Forall_inv in Hl. split; [exact Hl|]. split.
    + intros ->. constructor; [reflexivity|constructor].
    + intros F. apply Forall_inv in F. auto.
  - apply Forall_app in Hl as [Hl1 Hl2].
    destruct (IH1 Hl1) as [P1 Z1]. destruct (IH2 Hl2) as [P2 Z2].
    destruct (add_float64_nonneg r1 r2 P1 P2) as [P Z]. split; [exact P|].
    rewrite Z, Z1, Z2, Forall_app. reflexivity.
  - assert (Forall (Z.le 0) l) as Hl'
      by (rewrite Hp; exact Hl).
    destruct (IH Hl') as [P Z]. split; [exact P|].
    rewrite Z, Hp. reflexivity.
Qed.

Lemma zsum_zero_all l : Forall (Z.le 0) l ->
  (zsum l = 0 <-> Forall (eq 0) l).
Proof.
  induction 1 as [|x l Hx Hl IH]; [split; auto|].
  pose proof (zsum_nonneg l Hl) as Hs. cbn [zsum fold_right].
  fold (zsum l). split.
  - intros E. constructor; [lia|]. apply IH. lia.
  - intros F. inversion F as [|? ? F1 F2]; subst. apply IH in F2. lia.
Qed.

(** On weights that are not negative, the [float64] sum is zero exactly
    when the exact sum is. *)
Lemma weights_sum_zero_iff w :
  Forall (Z.le 0) w -> (weights_sum w = 0 <-> zsum w = 0).
Proof.
  intros Hw. unfold weights_sum.
  assert (Forall (Z.le 0) (map round_float64 w)) as Hr.
  { apply Forall_map. eapply Forall_impl; [|exact Hw]. intros z Hz. simpl.
    destruct (round_float64_sign z) as (Hp & _ & H0).
    destruct (Z.eq_dec z 0) as [E|E]; [rewrite (H0 E); lia|].
    specialize (Hp ltac:(lia)). lia. }
  destruct (sums_nonneg _ _ (buffered_sum_sums add_float64 0 _) Hr) as [_ Z].
  rewrite Z, (zsum_zero_all w Hw). rewrite Forall_map.
  split; intros F; (eapply Forall_impl; [|exact F]); intros z Hz; simpl in *.
  - destruct (round_float64_sign z) as (Hp & Hn & _).
    destruct (Z.lt_trichotomy z 0) as [L|[E|G]];
      [specialize (Hn L)|exact (eq_sym E)|specialize (Hp G)]; lia.
  - subst z. reflexivity.
Qed.


(* ------------------------------------------------------------------ *)
(** ** [np.average] *)

Lemma np_average_ok a w :
  length a = length w -> weights_sum w <> 0 ->
  np_average a w = Ok (average_of a w).
Proof.
  intros Hl Hz. unfold np_average, average_of.
  rewrite Hl, Nat.eqb_refl. simpl.
  rewrite fsum_of_int.
  destruct (Z.eqb_spec (weights_sum w) 0); [contradiction|reflexivity].
Qed.

Lemma np_average_zero a w :
  length a = length w -> weights_sum w = 0 ->
  np_average a w = Raise ZeroDivisionError.
Proof.
  intros Hl Hz. unfold np_average.
  rewrite Hl, Nat.eqb_refl. simpl.
  rewrite Hz. reflexivity.
Qed.

Lemma np_average_Ok_inv a w x :
  np_average a w = Ok x ->
  length a = length w /\ weights_sum w <> 0 /\ x = average_of a w.
Proof.
  unfold np_average.
  destruct (Nat.eqb_spec (length a) (length w)) as [Hl|Hl]; simpl; [|discriminate].
  rewrite fsum_of_int.
  destruct (Z.eqb_spec (weights_sum w) 0) as [Hz|Hz]; [discriminate|].
  intros E. injection E as <-. unfold average_of. auto.
Qed.

Lemma average_of_weighted a w :
  average_of a w = Spec.weighted a w.
Proof. unfold average_of, Spec.weighted. rewrite fsum_of_int. reflexivity. Qed.

(* ------------------------------------------------------------------ *)
(** ** When the call returns and when it raises *)

Lemma per_class_of_lengths cm :
  length (precision (per_class_of cm)) = shape0 cm /\
  length (recall (per_class_of cm)) = shape0 cm /\
  length (f1_score (per_class_of cm)) = shape0 cm /\
  length (balanced_accuracy (per_class_of cm)) = shape0 cm /\
  length (weighted_accuracy (per_class_of cm)) = shape0 cm /\
  length (mcc (per_class_of cm)) = shape0 cm.
Proof.
  unfold per_class_of, lists_of. cbn [precision recall f1_score
    balanced_accuracy weighted_accuracy mcc].
  rewrite !length_map, !length_seq. repeat split; reflexivity.
Qed.

Lemma np_sum_axis1_length cm : length (np_sum_axis1 cm) = shape0 cm.
Proof. unfold np_sum_axis1. rewrite length_map. reflexivity. Qed.

Lemma calculate_ok cm :
  rectangular cm = true -> (shape0 cm <= shape1 cm)%nat ->
  weights_sum (np_sum_axis1 cm) <> 0 ->
  calculate_classification_metrics cm = Ok (metrics_of cm).
Proof.
  intros Hrect Hle Hz. unfold calculate_classification_metrics.
  rewrite class_loop_square by assumption.
  destruct (per_class_of_lengths cm) as (H1 & H2 & H3 & H4 & H5 & H6).
  pose proof (np_sum_axis1_length cm) as Hw.
  cbn [mbind result_bind].
  rewrite !np_average_ok by congruence.
  reflexivity.
Qed.

Lemma calculate_zero_weights cm :
  rectangular cm = true -> (shape0 cm <= shape1 cm)%nat ->
  weights_sum (np_sum_axis1 cm) = 0 ->
  calculate_classification_metrics cm = Raise ZeroDivisionError.
Proof.
  intros Hrect Hle Hz. unfold calculate_classification_metrics.
  rewrite class_loop_square by assumption.
  destruct (per_class_of_lengths cm) as (H1 & _).
  pose proof (np_sum_axis1_length cm) as Hw.
  cbn [mbind result_bind].
  rewrite (np_average_zero (precision (per_class_of cm))) by congruence.
  reflexivity.
Qed.


(* ------------------------------------------------------------------ *)
(** ** Exactness of the integer arithmetic on small totals *)

Lemma pow4_bounds n m :
  0 <= n -> n ^ 4 <= m -> n <= m /\ n * n <= m /\ n * n * n * n <= m.
Proof.
  intros Hn Hm. replace (n ^ 4) with (n * n * n * n) in Hm by ring.
  destruct (Z.eq_dec n 0) as [->|Hz]; [lia|].
  assert (n <= n * n) as H1 by nia.
  assert (n * n <= n * n * n * n) as H2.
  { replace (n * n * n * n) with ((n * n) * (n * n)) by ring.
    set (q := n * n) in *. nia. }
  lia.
Qed.

Lemma cube_le_pow4 n : 0 <= n -> n * n * n <= n * n * n * n.
Proof.
  intros Hn. destruct (Z.eq_dec n 0) as [->|Hz]; [reflexivity|].
  assert (0 <= n * n) as H2 by (apply Z.mul_nonneg_nonneg; lia).
  assert (0 <= n * n * n) as H3 by (apply Z.mul_nonneg_nonneg; lia).
  replace (n * n * n) with (n * n * n * 1) at 1 by ring.
  apply Z.mul_le_mono_nonneg_l; lia.
Qed.

Lemma mul_bound a b n m :
  0 <= a <= n -> 0 <= b <= m -> 0 <= a * b <= n * m.
Proof. intros Ha Hb. nia. Qed.

Lemma counts_ok_rep tp fp fn tn :
  counts_ok tp fp fn tn -> counts_rep tp fp fn tn.
Proof.
  intros (H1 & H2 & H3 & H4 & H5). unfold counts_rep.
  assert (0 <= tp + fp + fn + tn) as Hn by lia.
  destruct (pow4_bounds _ _ Hn H5) as (B & _). auto.
Qed.

Local Ltac exact_op :=
  unfold Int64.add, Int64.sub, Int64.mul; apply wrap_in_range;
  unfold Int64.in_range, Int64.min_int, Int64.max_int in *.

Section Sums.

Variables tp fp fn tn : Z.
Hypothesis Hrep : counts_rep tp fp fn tn.

Lemma add_tp_fp : Int64.add tp fp = tp + fp.
Proof. destruct Hrep as (?&?&?&?&?). exact_op. lia. Qed.

Lemma add_tp_fn : Int64.add tp fn = tp + fn.
Proof. destruct Hrep as (?&?&?&?&?). exact_op. lia. Qed.

Lemma add_tn_fp : Int64.add tn fp = tn + fp.
Proof. destruct Hrep as (?&?&?&?&?). exact_op. lia. Qed.

Lemma add_tn_fn : Int64.add tn fn = tn + fn.
Proof. destruct Hrep as (?&?&?&?&?). exact_op. lia. Qed.

Lemma add_tp_tn : Int64.add tp tn = tp + tn.
Proof. destruct Hrep as (?&?&?&?&?). exact_op. lia. Qed.

Lemma add_all :
  Int64.add (Int64.add (Int64.add tp tn) fp) fn = tp + tn + fp + fn.
Proof.
  rewrite add_tp_tn. destruct Hrep as (?&?&?&?&?).
  assert (Int64.add (tp + tn) fp = tp + tn + fp) as -> by (exact_op; lia).
  exact_op. lia.
Qed.

End Sums.

Section Products.

Variables tp fp fn tn : Z.
Hypothesis Hok : counts_ok tp fp fn tn.

Let n := tp + fp + fn + tn.

Lemma counts_total_bounds :
  0 <= n /\ n <= 2 ^ 63 - 1 /\ n * n <= 2 ^ 63 - 1 /\
  n * n * n * n <= 2 ^ 63 - 1.
Proof.
  destruct Hok as (H1 & H2 & H3 & H4 & H5). fold n in H5.
  assert (0 <= n) as Hn by (unfold n; lia).
  destruct (pow4_bounds n _ Hn H5) as (B1 & B2 & B4).
  unfold Int64.max_int in *. lia.
Qed.

Lemma mcc_product_exact :
  Int64.mul (Int64.mul (Int64.mul (Int64.add tp fp) (Int64.add tp fn))
                       (Int64.add tn fp)) (Int64.add tn fn)
  = (tp + fp) * (tp + fn) * (tn + fp) * (tn + fn).
Proof.
  pose proof (counts_ok_rep _ _ _ _ Hok) as Hrep.
  rewrite (add_tp_fp _ _ _ _ Hrep), (add_tp_fn _ _ _ _ Hrep),
    (add_tn_fp _ _ _ _ Hrep), (add_tn_fn _ _ _ _ Hrep).
  pose proof counts_total_bounds as (Hn & B1 & B2 & B4).
  destruct Hok as (H1 & H2 & H3 & H4 & _).
  assert (0 <= tp + fp <= n) as Ha by (unfold n; lia).
  assert (0 <= tp + fn <= n) as Hb by (unfold n; lia).
  assert (0 <= tn + fp <= n) as Hc by (unfold n; lia).
  assert (0 <= tn + fn <= n) as Hd by (unfold n; lia).
  pose proof (mul_bound _ _ _ _ Ha Hb) as Hab.
  pose proof (mul_bound _ _ _ _ Hab Hc) as Habc.
  pose proof (mul_bound _ _ _ _ Habc Hd) as Habcd.
  pose proof (cube_le_pow4 n Hn) as B3.
  assert (Int64.mul (tp + fp) (tp + fn) = (tp + fp) * (tp + fn)) as ->
    by (exact_op; lia).
  assert (Int64.mul ((tp + fp) * (tp + fn)) (tn + fp)
          = (tp + fp) * (tp + fn) * (tn + fp)) as -> by (exact_op; lia).
  exact_op. lia.
Qed.

Lemma mcc_numerator_exact :
  Int64.sub (Int64.mul tp tn) (Int64.mul fp fn) = tp * tn - fp * fn.
Proof.
  pose proof counts_total_bounds as (Hn & B1 & B2 & B4).
  destruct Hok as (H1 & H2 & H3 & H4 & _).
  assert (0 <= tp <= n) as Ha by (unfold n; lia).
  assert (0 <= tn <= n) as Hb by (unfold n; lia).
  assert (0 <= fp <= n) as Hc by (unfold n; lia).
  assert (0 <= fn <= n) as Hd by (unfold n; lia).
  pose proof (mul_bound _ _ _ _ Ha Hb) as Hab.
  pose proof (mul_bound _ _ _ _ Hc Hd) as Hcd.
  assert (Int64.mul tp tn = tp * tn) as -> by (exact_op; lia).
  assert (Int64.mul fp fn = fp * fn) as -> by (exact_op; lia).
  exact_op. lia.
Qed.

End Products.

(* ------------------------------------------------------------------ *)
(** ** Sums of a non-negative matrix *)

Lemma nonneg_rows cm :
  nonneg cm = true -> Forall (Forall (Z.le 0)) cm.
Proof.
  unfold nonneg. rewrite forallb_forall. intros H.
  apply Forall_forall. intros r Hr. specialize (H r Hr).
  rewrite forallb_forall in H. apply Forall_forall. intros x Hx.
  apply Z.leb_le. exact (H x Hx).
Qed.

Lemma nonneg_concat cm :
  Forall (Forall (Z.le 0)) cm -> Forall (Z.le 0) (concat cm).
Proof.
  induction 1 as [|r cm Hr Hcm IH]; simpl; [constructor|].
  apply Forall_app. split; assumption.
Qed.

Lemma row_sums_nonneg cm :
  Forall (Forall (Z.le 0)) cm -> Forall (Z.le 0) (map zsum cm).
Proof.
  induction 1 as [|r cm Hr Hcm IH]; simpl; constructor; [|assumption].
  apply zsum_nonneg. assumption.
Qed.

Lemma total_nonneg cm :
  Forall (Forall (Z.le 0)) cm -> 0 <= Spec.total cm.
Proof. intros H. apply zsum_nonneg, row_sums_nonneg, H. Qed.

Lemma zsum_zero_iff l :
  Forall (Z.le 0) l -> (zsum l = 0 <-> forallb (Z.eqb 0) l = true).
Proof.
  induction 1 as [|x l Hx Hl IH]; [simpl; tauto|].
  pose proof (zsum_nonneg l Hl) as Hs. cbn [zsum fold_right forallb].
  fold (zsum l).
  destruct (Z.eqb_spec 0 x) as [<-|Hne]; cbn [andb].
  - rewrite <- IH. lia.
  - split; [lia|discriminate].
Qed.

Lemma total_zero_iff cm :
  Forall (Forall (Z.le 0)) cm -> (Spec.total cm = 0 <-> all_zero cm = true).
Proof.
  unfold Spec.total, all_zero.
  induction 1 as [|r cm Hr Hcm IH]; [simpl; tauto|].
  pose proof (zsum_nonneg r Hr) as H1.
  pose proof (zsum_nonneg _ (row_sums_nonneg cm Hcm)) as H2.
  pose proof (zsum_zero_iff r Hr) as Hrow.
  cbn [map zsum fold_right forallb]. fold (zsum (map zsum cm)).
  fold (zsum r).
  destruct (forallb (Z.eqb 0) r); cbn [andb].
  - rewrite <- IH. assert (zsum r = 0) by tauto. lia.
  - split; [|discriminate]. intros E.
    assert (zsum r = 0) as E' by lia. apply Hrow in E'. discriminate.
Qed.

Lemma nth_nil_zero c : nth c (@nil Z) 0 = 0.
Proof. destruct c; reflexivity. Qed.

Lemma entry_as_column cm c :
  Spec.entry cm c c = nth c (map (fun r => nth c r 0) cm) 0.
Proof.
  unfold Spec.entry.
  rewrite <- (map_nth (fun r => nth c r 0) cm [] c) at 1.
  rewrite nth_nil_zero. reflexivity.
Qed.

Lemma column_nonneg cm c :
  Forall (Forall (Z.le 0)) cm ->
  Forall (Z.le 0) (map (fun r => nth c r 0) cm).
Proof.
  induction 1 as [|r cm Hr Hcm IH]; simpl; constructor; [|assumption].
  apply (nth_le_zsum r c Hr).
Qed.

Lemma row_nonneg cm c :
  Forall (Forall (Z.le 0)) cm -> Forall (Z.le 0) (nth c cm []).
Proof.
  intros H. revert c. induction H as [|r cm Hr Hcm IH]; intros [|c]; simpl;
    auto.
Qed.

Lemma row_sum_le_total cm c :
  Forall (Forall (Z.le 0)) cm -> Spec.row_sum cm c <= Spec.total cm.
Proof.
  intros H. unfold Spec.row_sum, Spec.total.
  replace (zsum (nth c cm [])) with (nth c (map zsum cm) 0).
  - apply nth_le_zsum, row_sums_nonneg, H.
  - rewrite <- (map_nth zsum cm [] c). reflexivity.
Qed.

(** The entries of row [c] outside column [c], summed over all rows,
    bound what lies outside the column. *)
Lemma row_plus_column_le_total cm c :
  Forall (Forall (Z.le 0)) cm ->
  Spec.row_sum cm c + Spec.column_sum cm c - Spec.entry cm c c
  <= Spec.total cm.
Proof.
  intros H.
  set (d := map (fun r => zsum r - nth c r 0) cm).
  assert (Forall (Z.le 0) d) as Hd.
  { unfold d. clear d. induction H as [|r cm Hr Hcm IH]; simpl; constructor;
      [|assumption].
    pose proof (nth_le_zsum r c Hr). lia. }
  assert (zsum d = Spec.total cm - Spec.column_sum cm c) as Hsum.
  { unfold d. rewrite zsum_map_sub. reflexivity. }
  assert (nth c d 0 = Spec.row_sum cm c - Spec.entry cm c c) as Hnth.
  { pose proof (map_nth (fun r => zsum r - nth c r 0) cm [] c) as E.
    cbv beta in E. rewrite nth_nil_zero in E. exact E. }
  pose proof (nth_le_zsum d c Hd). lia.
Qed.

Lemma column_sum_le_total cm c :
  Forall (Forall (Z.le 0)) cm -> Spec.column_sum cm c <= Spec.total cm.
Proof.
  intros H. unfold Spec.column_sum, Spec.total.
  induction H as [|r cm Hr Hcm IH]; simpl; [lia|].
  pose proof (nth_le_zsum r c Hr). lia.
Qed.

Lemma counts_bounds cm c :
  Forall (Forall (Z.le 0)) cm ->
  0 <= Spec.tp cm c /\ 0 <= Spec.fp cm c /\ 0 <= Spec.fn cm c /\
  0 <= Spec.tn cm c /\
  Spec.tp cm c + Spec.fp cm c + Spec.fn cm c + Spec.tn cm c = Spec.total cm.
Proof.
  intros H. unfold Spec.tn, Spec.fp, Spec.fn, Spec.tp.
  pose proof (row_plus_column_le_total cm c H).
  pose proof (nth_le_zsum _ c (row_nonneg cm c H)) as Hr.
  fold (Spec.entry cm c c) in Hr. fold (Spec.row_sum cm c) in Hr.
  pose proof (nth_le_zsum _ c (column_nonneg cm c H)) as Hc.
  rewrite <- entry_as_column in Hc. fold (Spec.column_sum cm c) in Hc.
  lia.
Qed.

Lemma np_sum_exact cm :
  nonneg cm = true -> representable_total cm = true ->
  np_sum cm = Spec.total cm.
Proof.
  intros Hn Hr. apply nonneg_rows in Hn. apply Z.leb_le in Hr.
  unfold np_sum. rewrite sum64_exact.
  - apply zsum_concat.
  - apply nonneg_concat, Hn.
  - rewrite zsum_concat. exact Hr.
Qed.

Lemma np_sum_axis1_exact cm :
  nonneg cm = true -> representable_total cm = true ->
  np_sum_axis1 cm = Spec.samples cm.
Proof.
  intros Hn Hr. apply nonneg_rows in Hn. apply Z.leb_le in Hr.
  unfold np_sum_axis1, Spec.samples. apply map_ext_in.
  intros r Hin. apply sum64_exact.
  - rewrite Forall_forall in Hn. apply Hn, Hin.
  - destruct (In_nth cm r [] Hin) as (c & Hc & <-).
    pose proof (row_sum_le_total cm c Hn). unfold Spec.row_sum in *. lia.
Qed.

(* ------------------------------------------------------------------ *)
(** ** The loop body on exact counts *)

Lemma guarded_div a b :
  (if b >? 0 then truediv a b else of_int 0)
  = Fin (if 0 <? b then IZR a / IZR b else 0).
Proof.
  rewrite Z.gtb_ltb. destruct (Z.ltb_spec 0 b) as [Hb|Hb]; [|reflexivity].
  apply truediv_fin. lia.
Qed.

Lemma f1_of_fin p r :
  (if fgt (fadd (Fin p) (Fin r)) (of_int 0)
   then fdiv (fmul (of_int 2) (fmul (Fin p) (Fin r))) (fadd (Fin p) (Fin r))
   else of_int 0)
  = Fin (if Rltb 0 (p + r) then 2 * p * r / (p + r) else 0).
Proof.
  unfold of_int. cbn [fadd fmul fgt].
  unfold Rltb at 1 2. destruct (Rlt_dec 0 (p + r)) as [H|H]; [|reflexivity].
  rewrite fdiv_fin by lra. rewrite Rmult_assoc. reflexivity.
Qed.

Lemma mcc_of_product num prod :
  0 <= prod ->
  (let mcc_denominator := fsqrt (of_int prod) in
   if fne mcc_denominator (of_int 0)
   then fdiv (of_int num) mcc_denominator else of_int 0)
  = Fin (if Reqb (sqrt (IZR prod)) 0 then 0
         else IZR num / sqrt (IZR prod)).
Proof.
  intros Hp. unfold of_int. cbn [fsqrt].
  rewrite Rltb_false by (apply Rle_not_lt, IZR_le; exact Hp).
  cbn zeta. unfold fne. cbn [feq].
  unfold Reqb at 1 2. destruct (Req_dec_T (sqrt (IZR prod)) 0) as [E|E];
    cbn [negb]; [reflexivity|].
  apply fdiv_fin. exact E.
Qed.

Section ExactCounts.

Variables tp fp fn tn : Z.
Hypothesis Hrep : counts_rep tp fp fn tn.

Let p : R := if 0 <? tp + fp then IZR tp / IZR (tp + fp) else 0.
Let r : R := if 0 <? tp + fn then IZR tp / IZR (tp + fn) else 0.
Let s : R := if 0 <? tn + fp then IZR tn / IZR (tn + fp) else 0.

Lemma precision_exact :
  c_precision (metrics_of_counts tp fp fn tn) = Fin p.
Proof.
  unfold metrics_of_counts. cbn [c_precision].
  rewrite (add_tp_fp _ _ _ _ Hrep). apply guarded_div.
Qed.

Lemma recall_exact :
  c_recall (metrics_of_counts tp fp fn tn) = Fin r.
Proof.
  unfold metrics_of_counts. cbn [c_recall].
  rewrite (add_tp_fn _ _ _ _ Hrep). apply guarded_div.
Qed.

Lemma f1_exact :
  c_f1 (metrics_of_counts tp fp fn tn)
  = Fin (if Rltb 0 (p + r) then 2 * p * r / (p + r) else 0).
Proof.
  pose proof precision_exact as Hp. pose proof recall_exact as Hr.
  unfold metrics_of_counts in *. cbn [c_f1 c_precision c_recall] in *.
  rewrite Hp, Hr. apply f1_of_fin.
Qed.

Lemma balanced_accuracy_exact :
  c_balanced_accuracy (metrics_of_counts tp fp fn tn) = Fin ((r + s) / 2).
Proof.
  pose proof recall_exact as Hr.
  unfold metrics_of_counts in *. cbn [c_balanced_accuracy c_recall] in *.
  rewrite Hr. rewrite (add_tn_fp _ _ _ _ Hrep), guarded_div.
  cbn [fadd]. unfold of_int. apply fdiv_fin. lra.
Qed.

Lemma weighted_accuracy_exact :
  0 < tp + tn + fp + fn ->
  c_weighted_accuracy (metrics_of_counts tp fp fn tn)
  = Fin (IZR (tp + tn) / IZR (tp + tn + fp + fn)).
Proof.
  intros Hpos. unfold metrics_of_counts. cbn [c_weighted_accuracy].
  rewrite (add_all _ _ _ _ Hrep), (add_tp_tn _ _ _ _ Hrep).
  apply truediv_fin. lia.
Qed.

Lemma mcc_exact :
  counts_ok tp fp fn tn ->
  c_mcc (metrics_of_counts tp fp fn tn)
  = Fin (if Reqb (sqrt (IZR ((tp + fp) * (tp + fn) * (tn + fp) * (tn + fn)))) 0
         then 0
         else IZR (tp * tn - fp * fn)
              / sqrt (IZR ((tp + fp) * (tp + fn) * (tn + fp) * (tn + fn)))).
Proof.
  intros Hok. unfold metrics_of_counts. cbn [c_mcc].
  rewrite (mcc_product_exact _ _ _ _ Hok), (mcc_numerator_exact _ _ _ _ Hok).
  apply mcc_of_product.
  destruct Hok as (H1 & H2 & H3 & H4 & _).
  repeat apply Z.mul_nonneg_nonneg; lia.
Qed.

End ExactCounts.

Lemma class_values_exact cm c :
  nonneg cm = true -> representable_total cm = true ->
  class_values cm (np_sum cm) c
  = metrics_of_counts (Spec.tp cm c) (Spec.fp cm c) (Spec.fn cm c)
                      (Spec.tn cm c).
Proof.
  intros Hn Hr. rewrite (np_sum_exact cm Hn Hr).
  apply nonneg_rows in Hn. apply Z.leb_le in Hr.
  unfold Int64.max_int in Hr.
  pose proof (counts_bounds cm c Hn) as (B1 & B2 & B3 & B4 & B5).
  pose proof (column_sum_le_total cm c Hn) as Hc.
  pose proof (row_sum_le_total cm c Hn) as Hrow.
  unfold class_values. cbv zeta.
  rewrite (sum64_exact (map _ cm)); [|apply column_nonneg, Hn|exact (Z.le_trans _ _ _ Hc Hr)].
  rewrite (sum64_exact (nth c cm [])); [|apply row_nonneg, Hn|exact (Z.le_trans _ _ _ Hrow Hr)].
  fold (Spec.column_sum cm c). fold (Spec.row_sum cm c). fold (Spec.tp cm c).
  assert (Int64.sub (Spec.column_sum cm c) (Spec.tp cm c) = Spec.fp cm c) as ->.
  { unfold Int64.sub. apply wrap_in_range.
    unfold Int64.in_range, Int64.min_int, Int64.max_int, Spec.fp in *. lia. }
  assert (Int64.sub (Spec.row_sum cm c) (Spec.tp cm c) = Spec.fn cm c) as ->.
  { unfold Int64.sub. apply wrap_in_range.
    unfold Int64.in_range, Int64.min_int, Int64.max_int, Spec.fn in *. lia. }
  assert (Int64.add (Spec.tp cm c) (Spec.fp cm c)
          = Spec.tp cm c + Spec.fp cm c) as ->.
  { unfold Int64.add. apply wrap_in_range.
    unfold Int64.in_range, Int64.min_int, Int64.max_int in *. lia. }
  assert (Int64.add (Spec.tp cm c + Spec.fp cm c) (Spec.fn cm c)
          = Spec.tp cm c + Spec.fp cm c + Spec.fn cm c) as ->.
  { unfold Int64.add. apply wrap_in_range.
    unfold Int64.in_range, Int64.min_int, Int64.max_int in *. lia. }
  assert (Int64.sub (Spec.total cm)
            (Spec.tp cm c + Spec.fp cm c + Spec.fn cm c) = Spec.tn cm c) as ->.
  { unfold Int64.sub. rewrite wrap_in_range; [unfold Spec.tn; lia|].
    unfold Int64.in_range, Int64.min_int, Int64.max_int in *. lia. }
  reflexivity.
Qed.

Lemma counts_rep_of_matrix cm c :
  nonneg cm = true -> representable_total cm = true ->
  counts_rep (Spec.tp cm c) (Spec.fp cm c) (Spec.fn cm c) (Spec.tn cm c).
Proof.
  intros Hn Hs. apply nonneg_rows in Hn. apply Z.leb_le in Hs.
  pose proof (counts_bounds cm c Hn) as (B1 & B2 & B3 & B4 & B5).
  unfold counts_rep. rewrite B5. auto.
Qed.

Lemma counts_ok_of_matrix cm c :
  nonneg cm = true -> small_total cm = true ->
  counts_ok (Spec.tp cm c) (Spec.fp cm c) (Spec.fn cm c) (Spec.tn cm c).
Proof.
  intros Hn Hs. apply nonneg_rows in Hn. apply Z.leb_le in Hs.
  pose proof (counts_bounds cm c Hn) as (B1 & B2 & B3 & B4 & B5).
  unfold counts_ok. rewrite B5. auto.
Qed.

Lemma small_total_representable cm :
  nonneg cm = true -> small_total cm = true -> representable_total cm = true.
Proof.
  intros Hn Hs. apply nonneg_rows in Hn. apply Z.leb_le in Hs.
  apply Z.leb_le.
  destruct (pow4_bounds _ _ (total_nonneg cm Hn) Hs) as (H & _). exact H.
Qed.

(* ------------------------------------------------------------------ *)
(** ** Returned per-class lists *)

Lemma square_shape cm :
  square cm = true -> rectangular cm = true /\ shape1 cm = shape0 cm.
Proof.
  unfold square. intros H. apply andb_true_iff in H as [H1 H2].
  apply Nat.eqb_eq in H2. auto.
Qed.

Lemma samples_sum cm : zsum (Spec.samples cm) = Spec.total cm.
Proof. reflexivity. Qed.

(** On a non-negative matrix with a representable total, the weights of
    [np.average] add up to zero in [float64] exactly when the total
    is zero. *)
Lemma weights_sum_total cm :
  nonneg cm = true -> representable_total cm = true ->
  (weights_sum (np_sum_axis1 cm) = 0 <-> Spec.total cm = 0).
Proof.
  intros Hn Hr. rewrite (np_sum_axis1_exact cm Hn Hr).
  rewrite (weights_sum_zero_iff (Spec.samples cm)), samples_sum; [tauto|].
  apply row_sums_nonneg, nonneg_rows, Hn.
Qed.

(** A square, non-negative matrix with a positive representable total:
    the call returns [metrics_of cm]. *)
Lemma calculate_square cm :
  square cm = true -> nonneg cm = true ->
  representable_total cm = true -> 0 < Spec.total cm ->
  calculate_classification_metrics cm = Ok (metrics_of cm).
Proof.
  intros Hsq Hn Hr Hpos. destruct (square_shape cm Hsq) as [Hrect Hshape].
  apply calculate_ok; [assumption|lia|].
  rewrite (weights_sum_total cm Hn Hr). lia.
Qed.

Lemma per_class_map {A} (f : ClassMetrics -> A) (g : nat -> A) cm :
  (forall c, f (class_values cm (np_sum cm) c) = g c) ->
  map f (map (class_values cm (np_sum cm)) (seq 0 (shape0 cm)))
  = map g (Spec.classes cm).
Proof.
  intros H. rewrite map_map. apply map_ext. exact H.
Qed.

(** The loop body at class [c] computes the reference values. *)
Lemma class_values_reference cm c :
  nonneg cm = true -> representable_total cm = true -> 0 < Spec.total cm ->
  let m := class_values cm (np_sum cm) c in
  c_precision m = Fin (Spec.precision cm c) /\
  c_recall m = Fin (Spec.recall cm c) /\
  c_f1 m = Fin (Spec.f1 cm c) /\
  c_balanced_accuracy m = Fin (Spec.balanced_accuracy cm c) /\
  c_weighted_accuracy m = Fin (Spec.weighted_accuracy cm c) /\
  (small_total cm = true -> c_mcc m = Fin (Spec.mcc cm c)).
Proof.
  intros Hn Hr Hpos. cbv zeta. rewrite class_values_exact by assumption.
  pose proof (counts_rep_of_matrix cm c Hn Hr) as Hrep.
  split; [apply precision_exact, Hrep|].
  split; [apply recall_exact, Hrep|].
  split; [apply f1_exact, Hrep|].
  split; [apply balanced_accuracy_exact, Hrep|].
  split.
  - rewrite weighted_accuracy_exact; [reflexivity|exact Hrep|].
    pose proof (counts_bounds cm c (nonneg_rows cm Hn)) as (_&_&_&_&B). lia.
  - intros Hs. apply mcc_exact, counts_ok_of_matrix; assumption.
Qed.

(* ------------------------------------------------------------------ *)
(** ** C1: the per-class metrics against the reference algorithm *)

(** C1, as stated, fails on the all-zero 1x1 matrix: it is square, its
    entries are non-negative and it has one class, yet the call returns
    nothing; [np.average] raises [ZeroDivisionError] on the zero weights. *)
Lemma C1_zero_matrix_raises :
  square zero_1x1 = true /\ nonneg zero_1x1 = true /\
  shape0 zero_1x1 = 1%nat /\
  calculate_classification_metrics zero_1x1 = Raise ZeroDivisionError /\
  ~ (exists r, calculate_classification_metrics zero_1x1 = Ok r).
Proof.
  assert (calculate_classification_metrics zero_1x1 = Raise ZeroDivisionError)
    as E by (apply calculate_zero_weights; [reflexivity|simpl; lia|reflexivity]).
  repeat split; try reflexivity; try exact E.
  intros [r Hr]. rewrite E in Hr. discriminate.
Qed.

(** C1 (amended): for every square matrix of non-negative integers whose
    total sample count [n] is positive and below [2^63], the call returns,
    and the returned precision, recall, f1, balanced accuracy and weighted
    accuracy lists hold, class by class, the values of the reference
    algorithm of section 4.1 (zero substituted for a zero denominator);
    when moreover [n^4 < 2^63], so does the returned mcc list. *)
Theorem C1_per_class_reference cm :
  square cm = true -> nonneg cm = true ->
  representable_total cm = true -> 0 < Spec.total cm ->
  exists r,
    calculate_classification_metrics cm = Ok r /\
    precision (per_class r)
      = map (fun c => Fin (Spec.precision cm c)) (Spec.classes cm) /\
    recall (per_class r)
      = map (fun c => Fin (Spec.recall cm c)) (Spec.classes cm) /\
    f1_score (per_class r)
      = map (fun c => Fin (Spec.f1 cm c)) (Spec.classes cm) /\
    balanced_accuracy (per_class r)
      = map (fun c => Fin (Spec.balanced_accuracy cm c)) (Spec.classes cm) /\
    weighted_accuracy (per_class r)
      = map (fun c => Fin (Spec.weighted_accuracy cm c)) (Spec.classes cm) /\
    (small_total cm = true ->
     mcc (per_class r)
       = map (fun c => Fin (Spec.mcc cm c)) (Spec.classes cm)).
Proof.
  intros Hsq Hn Hr Hpos. exists (metrics_of cm).
  split; [apply calculate_square; assumption|].
  unfold metrics_of, per_class_of, lists_of.
  cbn [per_class precision recall f1_score balanced_accuracy
       weighted_accuracy mcc].
  repeat split; try intros Hs; apply per_class_map; intros c;
    destruct (class_values_reference cm c Hn Hr Hpos)
      as (Hp & Hrec & Hf & Hb & Hw & Hm); auto.
Qed.

Lemma C1_per_class_reference_witness :
  square SCALAR_cm = true /\ nonneg SCALAR_cm = true /\
  representable_total SCALAR_cm = true /\ 0 < Spec.total SCALAR_cm /\
  exists r,
    calculate_classification_metrics SCALAR_cm = Ok r /\
    precision (per_class r)
      = map (fun c => Fin (Spec.precision SCALAR_cm c))
            (Spec.classes SCALAR_cm) /\
    recall (per_class r)
      = map (fun c => Fin (Spec.recall SCALAR_cm c))
            (Spec.classes SCALAR_cm) /\
    f1_score (per_class r)
      = map (fun c => Fin (Spec.f1 SCALAR_cm c)) (Spec.classes SCALAR_cm) /\
    balanced_accuracy (per_class r)
      = map (fun c => Fin (Spec.balanced_accuracy SCALAR_cm c))
            (Spec.classes SCALAR_cm) /\
    weighted_accuracy (per_class r)
      = map (fun c => Fin (Spec.weighted_accuracy SCALAR_cm c))
            (Spec.classes SCALAR_cm) /\
    (small_total SCALAR_cm = true ->
     mcc (per_class r)
       = map (fun c => Fin (Spec.mcc SCALAR_cm c)) (Spec.classes SCALAR_cm)).
Proof.
  assert (square SCALAR_cm = true) as H1 by reflexivity.
  assert (nonneg SCALAR_cm = true) as H2 by reflexivity.
  assert (representable_total SCALAR_cm = true) as H3 by reflexivity.
  assert (0 < Spec.total SCALAR_cm) as H4 by (vm_compute; reflexivity).
  repeat (split; [assumption|]).
  exact (C1_per_class_reference SCALAR_cm H1 H2 H3 H4).
Defined.

(* ------------------------------------------------------------------ *)
(** ** C3: matrices that are not square *)




(* ------------------------------------------------------------------ *)
(** ** C4: zero weights *)

(** C4, as stated, fails on the all-zero 2x2 matrix: the total sample
    count is zero and the call raises [ZeroDivisionError]. *)
Lemma C4_zero_total_raises :
  square zero_2x2 = true /\ nonneg zero_2x2 = true /\
  Spec.total zero_2x2 = 0 /\
  calculate_classification_metrics zero_2x2 = Raise ZeroDivisionError.
Proof.
  repeat split; try reflexivity;
    apply calculate_zero_weights; try reflexivity; simpl; lia.
Qed.

(** C4 (amended): for every square matrix of non-negative integers whose
    total sample count is positive and below [2^63], also when some
    classes have a zero row sum, the call raises nothing and returns a
    complete result; each weighted average is the sum of [X_c * samples_c]
    over all classes divided by the sum of all [samples_c], which is the
    total sample count: a class of weight zero adds zero to that
    divisor. *)
Theorem C4_zero_weight_class cm :
  square cm = true -> nonneg cm = true ->
  representable_total cm = true -> 0 < Spec.total cm ->
  exists r,
    calculate_classification_metrics cm = Ok r /\
    fsum (map of_int (Spec.samples cm)) = of_int (Spec.total cm) /\
    weighted_precision (overall r)
      = Spec.weighted (precision (per_class r)) (Spec.samples cm) /\
    weighted_recall (overall r)
      = Spec.weighted (recall (per_class r)) (Spec.samples cm) /\
    weighted_f1_score (overall r)
      = Spec.weighted (f1_score (per_class r)) (Spec.samples cm) /\
    weighted_balanced_accuracy (overall r)
      = Spec.weighted (balanced_accuracy (per_class r)) (Spec.samples cm) /\
    weighted_weighted_accuracy (overall r)
      = Spec.weighted (weighted_accuracy (per_class r)) (Spec.samples cm) /\
    weighted_mcc (overall r)
      = Spec.weighted (mcc (per_class r)) (Spec.samples cm).
Proof.
  intros Hsq Hn Hr Hpos. exists (metrics_of cm).
  split; [apply calculate_square; assumption|].
  split; [apply fsum_of_int|].
  unfold metrics_of, overall_of, overall_from.
  cbn [overall per_class weighted_precision weighted_recall weighted_f1_score
       weighted_balanced_accuracy weighted_weighted_accuracy weighted_mcc].
  rewrite (np_sum_axis1_exact cm Hn Hr).
  repeat split; apply average_of_weighted.
Qed.

Lemma C4_zero_weight_class_witness :
  square idle_class = true /\ nonneg idle_class = true /\
  representable_total idle_class = true /\ 0 < Spec.total idle_class /\
  Spec.row_sum idle_class 2 = 0 /\
  exists r,
    calculate_classification_metrics idle_class = Ok r /\
    fsum (map of_int (Spec.samples idle_class))
      = of_int (Spec.total idle_class) /\
    weighted_precision (overall r)
      = Spec.weighted (precision (per_class r)) (Spec.samples idle_class) /\
    weighted_recall (overall r)
      = Spec.weighted (recall (per_class r)) (Spec.samples idle_class) /\
    weighted_f1_score (overall r)
      = Spec.weighted (f1_score (per_class r)) (Spec.samples idle_class) /\
    weighted_balanced_accuracy (overall r)
      = Spec.weighted (balanced_accuracy (per_class r))
                      (Spec.samples idle_class) /\
    weighted_weighted_accuracy (overall r)
      = Spec.weighted (weighted_accuracy (per_class r))
                      (Spec.samples idle_class) /\
    weighted_mcc (overall r)
      = Spec.weighted (mcc (per_class r)) (Spec.samples idle_class).
Proof.
  assert (square idle_class = true) as H1 by reflexivity.
  assert (nonneg idle_class = true) as H2 by reflexivity.
  assert (representable_total idle_class = true) as H3 by reflexivity.
  assert (0 < Spec.total idle_class) as H4 by (vm_compute; reflexivity).
  repeat (split; [assumption|]). split; [reflexivity|].
  exact (C4_zero_weight_class idle_class H1 H2 H3 H4).
Defined.

(* ------------------------------------------------------------------ *)
(** ** Any returned result *)

Lemma class_loop_Ok_inv cm total_samples cs pc pc' :
  class_loop cm total_samples cs pc = Ok pc' ->
  exists ms,
    Forall2 (fun c m => class_step cm total_samples c = Ok m) cs ms /\
    pc' = fold_left append_class ms pc.
Proof.
  revert pc. induction cs as [|c cs IH]; intros pc H; simpl in H.
  - injection H as <-. exists []. split; [constructor|reflexivity].
  - destruct (class_step cm total_samples c) as [m|e] eqn:E; simpl in H;
      [|discriminate].
    destruct (IH _ H) as (ms & Hms & ->).
    exists (m :: ms). split; [constructor; assumption|reflexivity].
Qed.

Lemma lists_of_append ms : fold_left append_class ms empty_per_class = lists_of ms.
Proof. rewrite append_classes. reflexivity. Qed.

(** Whatever the array, a returned result holds the values of the loop
    body in class order and the aggregates over them. *)
Lemma calculate_Ok_general cm r :
  calculate_classification_metrics cm = Ok r ->
  exists ms,
    Forall2 (fun c m => class_step cm (np_sum cm) c = Ok m)
            (seq 0 (shape0 cm)) ms /\
    weights_sum (np_sum_axis1 cm) <> 0 /\
    r = {| per_class := lists_of ms;
           overall := overall_from cm (lists_of ms) |}.
Proof.
  unfold calculate_classification_metrics. intros H.
  destruct (class_loop cm (np_sum cm) (seq 0 (shape0 cm)) empty_per_class)
    as [pc|e] eqn:Eloop; cbn [mbind result_bind] in H; [|discriminate].
  destruct (class_loop_Ok_inv _ _ _ _ _ Eloop) as (ms & Hms & ->).
  rewrite lists_of_append in H.
  exists ms. split; [exact Hms|].
  destruct (np_average (precision (lists_of ms)) (np_sum_axis1 cm))
    as [w1|] eqn:E1; cbn [mbind result_bind] in H; [|discriminate].
  destruct (np_average (recall (lists_of ms)) (np_sum_axis1 cm))
    as [w2|] eqn:E2; cbn [mbind result_bind] in H; [|discriminate].
  destruct (np_average (f1_score (lists_of ms)) (np_sum_axis1 cm))
    as [w3|] eqn:E3; cbn [mbind result_bind] in H; [|discriminate].
  destruct (np_average (balanced_accuracy (lists_of ms)) (np_sum_axis1 cm))
    as [w4|] eqn:E4; cbn [mbind result_bind] in H; [|discriminate].
  destruct (np_average (weighted_accuracy (lists_of ms)) (np_sum_axis1 cm))
    as [w5|] eqn:E5; cbn [mbind result_bind] in H; [|discriminate].
  destruct (np_average (mcc (lists_of ms)) (np_sum_axis1 cm))
    as [w6|] eqn:E6; cbn [mbind result_bind] in H; [|discriminate].
  apply np_average_Ok_inv in E1 as (_ & Hz & ->).
  apply np_average_Ok_inv in E2 as (_ & _ & ->).
  apply np_average_Ok_inv in E3 as (_ & _ & ->).
  apply np_average_Ok_inv in E4 as (_ & _ & ->).
  apply np_average_Ok_inv in E5 as (_ & _ & ->).
  apply np_average_Ok_inv in E6 as (_ & _ & ->).
  split; [exact Hz|]. injection H as <-. reflexivity.
Qed.

Lemma getcol_Ok_inv cm c col :
  getcol cm c = Ok col -> col = map (fun r => nth c r 0) cm.
Proof.
  revert col. induction cm as [|r cm IH]; simpl; intros col H.
  - injection H as <-. reflexivity.
  - destruct (nth_error r c) as [x|] eqn:E; [|discriminate].
    destruct (getcol cm c) as [col'|] eqn:E'; simpl in H; [|discriminate].
    injection H as <-. rewrite (nth_error_nth _ _ 0 E), (IH col' eq_refl).
    reflexivity.
Qed.

Lemma class_step_Ok_inv cm total_samples c m :
  class_step cm total_samples c = Ok m ->
  m = class_values cm total_samples c.
Proof.
  unfold class_step, class_values, getitem, getrow, Spec.entry.
  destruct (nth_error cm c) as [r|] eqn:Er; simpl; [|discriminate].
  destruct (nth_error r c) as [x|] eqn:Ex; simpl; [|discriminate].
  destruct (getcol cm c) as [col|] eqn:Ec; simpl; [|discriminate].
  intros H. injection H as <-.
  rewrite (getcol_Ok_inv _ _ _ Ec), (nth_error_nth _ _ [] Er),
    (nth_error_nth _ _ 0 Ex).
  reflexivity.
Qed.

Lemma Forall2_nth_error {A B} (P : A -> B -> Prop) l k i x :
  Forall2 P l k -> nth_error l i = Some x ->
  exists y, nth_error k i = Some y /\ P x y.
Proof.
  intros H. revert i. induction H as [|a b l k Hab Hlk IH]; intros [|i] Hi;
    simpl in *; try discriminate.
  - injection Hi as <-. eauto.
  - apply IH, Hi.
Qed.

Lemma nth_error_seq_0 n i : (i < n)%nat -> nth_error (seq 0 n) i = Some i.
Proof.
  intros H. rewrite (nth_error_nth' _ 0%nat) by (rewrite length_seq; exact H).
  rewrite seq_nth by exact H. reflexivity.
Qed.

(* ------------------------------------------------------------------ *)
(** ** C10: the six per-class sequences are index-aligned *)

(** C10: for every matrix on which the call returns, each of the six
    per-class lists has exactly as many entries as the matrix has rows;
    entry [c] of each list is the value computed from class index [c],
    that is from the diagonal entry [c], the sum of column [c], the sum
    of row [c] and the total; and each macro average is the sum of its
    list divided by that number of rows. *)
Theorem C10_aligned_sequences cm r :
  calculate_classification_metrics cm = Ok r ->
  (length (precision (per_class r)) = shape0 cm /\
   length (recall (per_class r)) = shape0 cm /\
   length (f1_score (per_class r)) = shape0 cm /\
   length (balanced_accuracy (per_class r)) = shape0 cm /\
   length (weighted_accuracy (per_class r)) = shape0 cm /\
   length (mcc (per_class r)) = shape0 cm) /\
  (forall c, (c < shape0 cm)%nat ->
     let tp := Spec.entry cm c c in
     let fp := Int64.sub (sum64 (map (fun row => nth c row 0) cm)) tp in
     let fn := Int64.sub (sum64 (nth c cm [])) tp in
     let tn := Int64.sub (np_sum cm) (Int64.add (Int64.add tp fp) fn) in
     let m := metrics_of_counts tp fp fn tn in
     nth_error (precision (per_class r)) c = Some (c_precision m) /\
     nth_error (recall (per_class r)) c = Some (c_recall m) /\
     nth_error (f1_score (per_class r)) c = Some (c_f1 m) /\
     nth_error (balanced_accuracy (per_class r)) c
       = Some (c_balanced_accuracy m) /\
     nth_error (weighted_accuracy (per_class r)) c
       = Some (c_weighted_accuracy m) /\
     nth_error (mcc (per_class r)) c = Some (c_mcc m)) /\
  (macro_precision (overall r)
     = fdiv (fsum (precision (per_class r))) (of_int (Z.of_nat (shape0 cm))) /\
   macro_recall (overall r)
     = fdiv (fsum (recall (per_class r))) (of_int (Z.of_nat (shape0 cm))) /\
   macro_f1_score (overall r)
     = fdiv (fsum (f1_score (per_class r))) (of_int (Z.of_nat (shape0 cm))) /\
   macro_balanced_accuracy (overall r)
     = fdiv (fsum (balanced_accuracy (per_class r)))
            (of_int (Z.of_nat (shape0 cm))) /\
   macro_weighted_accuracy (overall r)
     = fdiv (fsum (weighted_accuracy (per_class r)))
            (of_int (Z.of_nat (shape0 cm))) /\
   macro_mcc (overall r)
     = fdiv (fsum (mcc (per_class r))) (of_int (Z.of_nat (shape0 cm)))).
Proof.
  intros H. destruct (calculate_Ok_general cm r H) as (ms & Hms & _ & ->).
  assert (length ms = shape0 cm) as Hlen.
  { apply Forall2_length in Hms. rewrite length_seq in Hms. auto. }
  cbn [per_class overall lists_of overall_from precision recall f1_score
       balanced_accuracy weighted_accuracy mcc macro_precision macro_recall
       macro_f1_score macro_balanced_accuracy macro_weighted_accuracy
       macro_mcc].
  split; [|split].
  - rewrite !length_map. repeat split; exact Hlen.
  - intros c Hc. cbv zeta.
    destruct (Forall2_nth_error _ _ _ c c Hms (nth_error_seq_0 _ _ Hc))
      as (m & Hm & Hstep).
    apply class_step_Ok_inv in Hstep. unfold class_values in Hstep.
    cbv zeta in Hstep. rewrite <- Hstep.
    rewrite !nth_error_map, Hm. repeat split; reflexivity.
  - unfold np_mean. rewrite !length_map, Hlen. repeat split; reflexivity.
Qed.

Lemma C10_aligned_sequences_witness :
  calculate_classification_metrics perfect_2x2 = Ok (metrics_of perfect_2x2)
  /\ length (precision (per_class (metrics_of perfect_2x2))) = 2%nat
  /\ length (mcc (per_class (metrics_of perfect_2x2))) = 2%nat
  /\ nth_error (precision (per_class (metrics_of perfect_2x2))) 1
     = Some (c_precision (metrics_of_counts 2 0 0 2)).
Proof.
  assert (calculate_classification_metrics perfect_2x2
          = Ok (metrics_of perfect_2x2)) as H
    by (apply calculate_ok; [reflexivity|simpl; lia|vm_compute; discriminate]).
  split; [exact H|].
  destruct (C10_aligned_sequences perfect_2x2 _ H)
    as ((L1 & _ & _ & _ & _ & L6) & E & _).
  split; [exact L1|]. split; [exact L6|].
  exact (proj1 (E 1%nat ltac:(simpl; lia))).
Defined.

(* ------------------------------------------------------------------ *)
(** ** Evaluation on concrete matrices *)

(** Replace a closed integer expression by its value. *)
Ltac zeval t :=
  let v := eval vm_compute in t in
  replace t with v by (vm_compute; reflexivity).

Ltac zeval_all :=
  repeat match goal with
  | |- context [Int64.add ?a ?b] => zeval (Int64.add a b)
  | |- context [Int64.sub ?a ?b] => zeval (Int64.sub a b)
  | |- context [Int64.mul ?a ?b] => zeval (Int64.mul a b)
  | |- context [Spec.entry ?m ?i ?j] => zeval (Spec.entry m i j)
  | |- context [np_sum ?m] => zeval (np_sum m)
  | |- context [np_trace ?m] => zeval (np_trace m)
  | |- context [np_sum_axis1 ?m] => zeval (np_sum_axis1 m)
  | |- context [Spec.samples ?m] => zeval (Spec.samples m)
  | |- context [sum64 ?l] => zeval (sum64 l)
  | |- context [zsum ?l] => zeval (zsum l)
  | |- context [?a >? ?b] => zeval (a >? b)
  end.

Lemma precision_of_counts tp fp fn tn :
  c_precision (metrics_of_counts tp fp fn tn)
  = if Int64.add tp fp >? 0 then truediv tp (Int64.add tp fp) else of_int 0.
Proof. reflexivity. Qed.

Lemma recall_of_counts tp fp fn tn :
  c_recall (metrics_of_counts tp fp fn tn)
  = if Int64.add tp fn >? 0 then truediv tp (Int64.add tp fn) else of_int 0.
Proof. reflexivity. Qed.

Lemma mcc_of_counts tp fp fn tn :
  c_mcc (metrics_of_counts tp fp fn tn)
  = let mcc_denominator :=
      fsqrt (of_int (Int64.mul (Int64.mul (Int64.mul (Int64.add tp fp)
                                                     (Int64.add tp fn))
                                          (Int64.add tn fp))
                               (Int64.add tn fn))) in
    if fne mcc_denominator (of_int 0)
    then fdiv (of_int (Int64.sub (Int64.mul tp tn) (Int64.mul fp fn)))
              mcc_denominator
    else of_int 0.
Proof. reflexivity. Qed.

(* ------------------------------------------------------------------ *)
(** ** C2: macro and weighted averages *)

Lemma huge_row_recall :
  recall (per_class_of huge_row) = [Fin 0; Fin (1 / 1)].
Proof.
  unfold per_class_of, lists_of. cbn [recall shape0 length seq map huge_row].
  unfold class_values. cbv zeta. rewrite !recall_of_counts.
  zeval_all. cbv iota. rewrite truediv_fin by lia. reflexivity.
Qed.

(** C2, as stated, fails on a matrix whose first row sums to [2^63]:
    [np.sum(cm, axis=1)] wraps that row sum to [-2^63], and the returned
    weighted recall, [1 / (1 - 2^63)], is not the weighted mean over the
    true row sums, [1 / (2^63 + 1)]. *)
Lemma C2_huge_row_weighted_recall :
  square huge_row = true /\ nonneg huge_row = true /\
  exists r,
    calculate_classification_metrics huge_row = Ok r /\
    weighted_recall (overall r)
      <> Spec.weighted (recall (per_class r)) (Spec.samples huge_row).
Proof.
  split; [reflexivity|]. split; [reflexivity|].
  exists (metrics_of huge_row). split.
  - apply calculate_ok; [reflexivity|simpl; lia|vm_compute; discriminate].
  - unfold metrics_of, overall_of, overall_from.
    cbn [overall per_class weighted_recall].
    rewrite huge_row_recall. unfold average_of, Spec.weighted.
    rewrite fsum_of_int. zeval_all.
    unfold of_int. cbn [map zip_with fsum fold_right fmul fadd].
    rewrite !fdiv_fin by (apply not_0_IZR; lia).
    intros E. injection E as E. lra.
Qed.

(** C2 (amended): for every matrix of non-negative integers whose total
    sample count is below [2^63] and on which the call returns, each
    returned [macro_X] is the arithmetic mean of the returned per-class
    [X] list, and each returned [weighted_X] is the sum of
    [X_c * samples_c] divided by the sum of [samples_c], where
    [samples_c] is the sum of row [c]. *)
Theorem C2_macro_and_weighted cm r :
  nonneg cm = true -> representable_total cm = true ->
  calculate_classification_metrics cm = Ok r ->
  (macro_precision (overall r) = Spec.macro (precision (per_class r)) /\
   macro_recall (overall r) = Spec.macro (recall (per_class r)) /\
   macro_f1_score (overall r) = Spec.macro (f1_score (per_class r)) /\
   macro_balanced_accuracy (overall r)
     = Spec.macro (balanced_accuracy (per_class r)) /\
   macro_weighted_accuracy (overall r)
     = Spec.macro (weighted_accuracy (per_class r)) /\
   macro_mcc (overall r) = Spec.macro (mcc (per_class r))) /\
  (weighted_precision (overall r)
     = Spec.weighted (precision (per_class r)) (Spec.samples cm) /\
   weighted_recall (overall r)
     = Spec.weighted (recall (per_class r)) (Spec.samples cm) /\
   weighted_f1_score (overall r)
     = Spec.weighted (f1_score (per_class r)) (Spec.samples cm) /\
   weighted_balanced_accuracy (overall r)
     = Spec.weighted (balanced_accuracy (per_class r)) (Spec.samples cm) /\
   weighted_weighted_accuracy (overall r)
     = Spec.weighted (weighted_accuracy (per_class r)) (Spec.samples cm) /\
   weighted_mcc (overall r)
     = Spec.weighted (mcc (per_class r)) (Spec.samples cm)).
Proof.
  intros Hn Hr H. destruct (calculate_Ok_general cm r H) as (ms & _ & _ & ->).
  cbn [overall per_class]. unfold overall_from.
  cbn [macro_precision macro_recall macro_f1_score macro_balanced_accuracy
       macro_weighted_accuracy macro_mcc weighted_precision weighted_recall
       weighted_f1_score weighted_balanced_accuracy
       weighted_weighted_accuracy weighted_mcc].
  rewrite (np_sum_axis1_exact cm Hn Hr).
  split; repeat split; try reflexivity; apply average_of_weighted.
Qed.

Lemma C2_macro_and_weighted_witness :
  nonneg SCALAR_cm = true /\ representable_total SCALAR_cm = true /\
  calculate_classification_metrics SCALAR_cm = Ok (metrics_of SCALAR_cm) /\
  macro_mcc (overall (metrics_of SCALAR_cm))
    = Spec.macro (mcc (per_class (metrics_of SCALAR_cm))) /\
  weighted_mcc (overall (metrics_of SCALAR_cm))
    = Spec.weighted (mcc (per_class (metrics_of SCALAR_cm)))
                    (Spec.samples SCALAR_cm).
Proof.
  assert (nonneg SCALAR_cm = true) as H1 by reflexivity.
  assert (representable_total SCALAR_cm = true) as H2 by reflexivity.
  assert (calculate_classification_metrics SCALAR_cm
          = Ok (metrics_of SCALAR_cm)) as H3
    by (apply calculate_ok; [reflexivity|simpl; lia|vm_compute; discriminate]).
  repeat (split; [assumption|]).
  destruct (C2_macro_and_weighted SCALAR_cm _ H1 H2 H3)
    as ((_ & _ & _ & _ & _ & M) & (_ & _ & _ & _ & _ & W)).
  split; [exact M|exact W].
Defined.

(* ------------------------------------------------------------------ *)
(** ** C5: overall accuracy *)

Lemma diagonal_from_square i cm :
  (forall r, In r cm -> (i + length cm <= length r)%nat) ->
  diagonal_from i cm
  = map (fun j => nth (i + j) (nth j cm []) 0) (seq 0 (length cm)).
Proof.
  revert i. induction cm as [|r cm IH]; intros i H; [reflexivity|].
  cbn [diagonal_from length].
  assert (i < length r)%nat as Hi
    by (specialize (H r (or_introl eq_refl)); simpl in H; lia).
  destruct (nth_error r i) as [x|] eqn:E;
    [|apply nth_error_None in E; lia].
  pose proof (nth_error_nth _ _ 0 E) as Hx.
  rewrite IH by (intros r' Hr'; specialize (H r' (or_intror Hr'));
                 simpl in H; lia).
  cbn [seq map]. rewrite Nat.add_0_r. cbn [nth]. rewrite Hx. f_equal.
  rewrite <- seq_shift, map_map. apply map_ext. intros j.
  cbn [nth]. f_equal. lia.
Qed.

Lemma diagonal_from_bound i cm :
  Forall (Forall (Z.le 0)) cm ->
  Forall (Z.le 0) (diagonal_from i cm) /\
  zsum (diagonal_from i cm) <= zsum (map zsum cm).
Proof.
  intros H. revert i. induction H as [|r cm Hr Hcm IH]; intros i; simpl.
  - split; [constructor|lia].
  - pose proof (zsum_nonneg _ (row_sums_nonneg cm Hcm)) as Hrest.
    pose proof (zsum_nonneg r Hr) as Hrow.
    destruct (nth_error r i) as [x|] eqn:E.
    + destruct (IH (S i)) as [IH1 IH2].
      pose proof (nth_le_zsum r i Hr) as Hx.
      rewrite (nth_error_nth _ _ 0 E) in Hx.
      split; [constructor; [lia|exact IH1]|simpl; lia].
    + split; [constructor|simpl; lia].
Qed.

Lemma np_trace_exact cm :
  square cm = true -> nonneg cm = true -> representable_total cm = true ->
  np_trace cm = Spec.trace cm /\ 0 <= Spec.trace cm <= Spec.total cm.
Proof.
  intros Hsq Hn Hr. destruct (square_shape cm Hsq) as [Hrect Hshape].
  apply nonneg_rows in Hn. apply Z.leb_le in Hr.
  destruct (diagonal_from_bound 0 cm Hn) as [Hd1 Hd2].
  assert (diagonal_from 0 cm
          = map (fun i => Spec.entry cm i i) (seq 0 (length cm))) as Hdiag.
  { apply diagonal_from_square. intros r Hin.
    rewrite (rectangular_rows cm r Hrect Hin), Hshape. unfold shape0. lia. }
  unfold np_trace, Spec.trace. rewrite <- Hdiag.
  fold (Spec.total cm) in Hd2.
  split.
  - apply sum64_exact; [exact Hd1|lia].
  - split; [apply zsum_nonneg, Hd1|exact Hd2].
Qed.

(** C5, as stated, fails on a matrix whose entries add up to [2^63 + 1]:
    [np.sum] wraps the total to [1 - 2^63] and the returned accuracy is
    negative. *)
Lemma C5_huge_row_accuracy :
  square huge_row = true /\ nonneg huge_row = true /\
  exists r x,
    calculate_classification_metrics huge_row = Ok r /\
    accuracy (overall r) = Fin x /\ (x < 0)%R.
Proof.
  split; [reflexivity|]. split; [reflexivity|].
  exists (metrics_of huge_row).
  exists (4611686018427387905 / -9223372036854775807)%R.
  split; [|split].
  - apply calculate_ok; [reflexivity|simpl; lia|vm_compute; discriminate].
  - unfold metrics_of, overall_of, overall_from. cbn [overall accuracy].
    zeval_all. apply truediv_fin. lia.
  - lra.
Qed.

(** C5 (amended): for every square matrix of non-negative integers whose
    total sample count is below [2^63] and on which the call returns,
    the returned accuracy is the trace of the matrix divided by the sum
    of all its entries, and lies in the closed interval from 0 to 1. *)
Theorem C5_accuracy cm r :
  square cm = true -> nonneg cm = true -> representable_total cm = true ->
  calculate_classification_metrics cm = Ok r ->
  accuracy (overall r) = Fin (Spec.accuracy cm) /\
  (0 <= Spec.accuracy cm <= 1)%R.
Proof.
  intros Hsq Hn Hr H.
  destruct (calculate_Ok_general cm r H) as (ms & _ & Hz & ->).
  rewrite (weights_sum_total cm Hn Hr) in Hz.
  pose proof (total_nonneg cm (nonneg_rows cm Hn)) as Hnn.
  destruct (np_trace_exact cm Hsq Hn Hr) as (Ht & Ht0 & Ht1).
  cbn [overall accuracy overall_from].
  rewrite Ht, (np_sum_exact cm Hn Hr). unfold Spec.accuracy.
  split; [apply truediv_fin; exact Hz|].
  assert (0 < IZR (Spec.total cm))%R as Hpos by (apply IZR_lt; lia).
  apply IZR_le in Ht0. apply IZR_le in Ht1.
  split.
  - apply Rmult_le_pos; [exact Ht0|]. left. apply Rinv_0_lt_compat, Hpos.
  - apply (Rmult_le_reg_r (IZR (Spec.total cm))); [exact Hpos|].
    unfold Rdiv. rewrite Rmult_assoc, Rinv_l by lra. lra.
Qed.

Lemma C5_accuracy_witness :
  square SCALAR_cm = true /\ nonneg SCALAR_cm = true /\
  representable_total SCALAR_cm = true /\
  calculate_classification_metrics SCALAR_cm = Ok (metrics_of SCALAR_cm) /\
  accuracy (overall (metrics_of SCALAR_cm)) = Fin (Spec.accuracy SCALAR_cm) /\
  (0 <= Spec.accuracy SCALAR_cm <= 1)%R.
Proof.
  assert (square SCALAR_cm = true) as H0 by reflexivity.
  assert (nonneg SCALAR_cm = true) as H1 by reflexivity.
  assert (representable_total SCALAR_cm = true) as H2 by reflexivity.
  assert (calculate_classification_metrics SCALAR_cm
          = Ok (metrics_of SCALAR_cm)) as H3
    by (apply calculate_ok; [reflexivity|simpl; lia|vm_compute; discriminate]).
  repeat (split; [assumption|]).
  exact (C5_accuracy SCALAR_cm _ H0 H1 H2 H3).
Defined.

(* ------------------------------------------------------------------ *)
(** ** C8: total confusion of two classes *)

Lemma class_values_total_confusion c :
  (c < 2)%nat ->
  class_values total_confusion (np_sum total_confusion) c
  = metrics_of_counts 0 1 1 0.
Proof.
  intros Hc. unfold class_values. cbv zeta.
  destruct c as [|[|c]]; [| |lia]; f_equal; vm_compute; reflexivity.
Qed.

Lemma counts_rep_0110 : counts_rep 0 1 1 0.
Proof. unfold counts_rep, Int64.max_int. lia. Qed.

Lemma counts_ok_0110 : counts_ok 0 1 1 0.
Proof. unfold counts_ok, Int64.max_int. lia. Qed.

Lemma total_confusion_class :
  let m := metrics_of_counts 0 1 1 0 in
  c_precision m = Fin 0 /\ c_recall m = Fin 0 /\ c_f1 m = Fin 0 /\
  c_mcc m = Fin (-1).
Proof.
  cbv zeta.
  assert (c_precision (metrics_of_counts 0 1 1 0) = Fin 0) as Hp.
  { rewrite (precision_exact _ _ _ _ counts_rep_0110).
    change (0 <? 0 + 1) with true. cbv iota. f_equal. simpl. lra. }
  assert (c_recall (metrics_of_counts 0 1 1 0) = Fin 0) as Hr.
  { rewrite (recall_exact _ _ _ _ counts_rep_0110).
    change (0 <? 0 + 1) with true. cbv iota. f_equal. simpl. lra. }
  repeat split; [exact Hp|exact Hr| |].
  - pose proof (f1_exact _ _ _ _ counts_rep_0110) as Hf.
    rewrite Hf. change (0 <? 0 + 1) with true. cbv iota.
    rewrite Rltb_false; [reflexivity|]. simpl. lra.
  - rewrite (mcc_exact _ _ _ _ counts_ok_0110).
    change ((0 + 1) * (0 + 1) * (0 + 1) * (0 + 1)) with 1.
    change (0 * 0 - 1 * 1) with (-1).
    rewrite sqrt_1. rewrite Reqb_false by lra. f_equal. lra.
Qed.

(** C8, as stated, fails: on [[0,1],[1,0]] each class has [tn = 0], the
    mcc denominator is [sqrt(1*1*1*1) = 1], and the returned mcc of each
    class is [-1], not [-0.5]. *)
Lemma C8_mcc_is_not_minus_half :
  exists r,
    calculate_classification_metrics total_confusion = Ok r /\
    mcc (per_class r) = [Fin (-1); Fin (-1)] /\
    Fin (-1) <> Fin (-1 / 2).
Proof.
  exists (metrics_of total_confusion). split; [|split].
  - apply calculate_ok; [reflexivity|simpl; lia|vm_compute; discriminate].
  - destruct total_confusion_class as (_ & _ & _ & Hm).
    unfold metrics_of, per_class_of, lists_of.
    cbn [per_class mcc shape0 length total_confusion seq map].
    fold total_confusion.
    rewrite !class_values_total_confusion by lia. rewrite Hm. reflexivity.
  - intros E. injection E as E. lra.
Qed.

(** C8 (amended): on the matrix [[0,1],[1,0]] the call returns overall
    accuracy 0 and, for each of the two classes, precision, recall and
    f1 equal to 0 and mcc equal to -1 (each class has [tp = 0],
    [fp = fn = 1] and [tn = 0], so the mcc denominator is
    [sqrt(1*1*1*1) = 1] and the numerator is [0*0 - 1*1 = -1]). *)
Theorem C8_total_confusion :
  exists r,
    calculate_classification_metrics total_confusion = Ok r /\
    accuracy (overall r) = Fin 0 /\
    precision (per_class r) = [Fin 0; Fin 0] /\
    recall (per_class r) = [Fin 0; Fin 0] /\
    f1_score (per_class r) = [Fin 0; Fin 0] /\
    mcc (per_class r) = [Fin (-1); Fin (-1)].
Proof.
  exists (metrics_of total_confusion).
  destruct total_confusion_class as (Hp & Hr & Hf & Hm).
  split; [|split].
  - apply calculate_ok; [reflexivity|simpl; lia|vm_compute; discriminate].
  - unfold metrics_of, overall_of, overall_from. cbn [overall accuracy].
    zeval_all. rewrite truediv_fin by lia. f_equal. lra.
  - unfold metrics_of, per_class_of, lists_of.
    cbn [per_class precision recall f1_score mcc shape0 length
         total_confusion seq map].
    fold total_confusion.
    rewrite !class_values_total_confusion by lia.
    rewrite Hp, Hr, Hf, Hm. repeat split; reflexivity.
Qed.

(* ------------------------------------------------------------------ *)
(** ** C7: diagonal matrices *)








Lemma map_as_seq {A B} (f : A -> B) (d : A) l :
  map f l = map (fun i => f (nth i l d)) (seq 0 (length l)).
Proof.
  induction l as [|x l IH]; [reflexivity|].
  cbn [length seq map nth]. f_equal.
  rewrite <- seq_shift, map_map. exact IH.
Qed.




Section DiagonalClass.

Variables d t : Z.
Hypothesis Hd : 0 < d.
Hypothesis Ht : 0 <= t.




End DiagonalClass.






(* ------------------------------------------------------------------ *)
(** ** C6: ranges of the returned scalars *)

Lemma large_uniform_mcc :
  mcc (per_class_of large_uniform) = [NaN; NaN].
Proof.
  unfold per_class_of, lists_of.
  cbn [mcc shape0 length large_uniform seq map]. fold large_uniform.
  unfold class_values. cbv zeta. rewrite !mcc_of_counts. zeval_all.
  cbv zeta. unfold of_int. cbn [fsqrt].
  rewrite Rltb_true by lra. reflexivity.
Qed.

(** C6 fails on the code.  The matrix [[100000,100000],[100000,100000]]
    is square, non-negative, and every class has nonzero row and column
    sums; the product [(tp+fp)*(tp+fn)*(tn+fp)*(tn+fn) = 200000^4]
    exceeds [2^63], wraps to a negative [int64], [np.sqrt] of it is
    not-a-number, and so are the returned per-class, macro and weighted
    mcc. *)
Theorem C6_large_uniform_mcc_nan :
  square large_uniform = true /\ nonneg large_uniform = true /\
  Spec.row_sum large_uniform 0 <> 0 /\ Spec.column_sum large_uniform 0 <> 0 /\
  exists r,
    calculate_classification_metrics large_uniform = Ok r /\
    mcc (per_class r) = [NaN; NaN] /\
    macro_mcc (overall r) = NaN /\
    weighted_mcc (overall r) = NaN.
Proof.
  repeat (split; [reflexivity|]).
  split; [vm_compute; discriminate|]. split; [vm_compute; discriminate|].
  exists (metrics_of large_uniform). split; [|split; [|split]].
  - apply calculate_ok; [reflexivity|simpl; lia|vm_compute; discriminate].
  - exact large_uniform_mcc.
  - unfold metrics_of, overall_of, overall_from. cbn [overall macro_mcc].
    rewrite large_uniform_mcc. reflexivity.
  - unfold metrics_of, overall_of, overall_from. cbn [overall weighted_mcc].
    rewrite large_uniform_mcc. unfold average_of. zeval_all. reflexivity.
Qed.

(* ------------------------------------------------------------------ *)
(** ** Ranges when no product overflows *)

Lemma ratio_bounds a b :
  0 <= a <= b ->
  (0 <= (if 0 <? b then IZR a / IZR b else 0) <= 1)%R.
Proof.
  intros [Ha Hab]. destruct (Z.ltb_spec 0 b) as [Hb|Hb]; [|lra].
  assert (0 < IZR b)%R as Hb' by (apply IZR_lt; lia).
  apply IZR_le in Ha. apply IZR_le in Hab.
  split.
  - apply Rmult_le_pos; [exact Ha|]. left. apply Rinv_0_lt_compat, Hb'.
  - apply (Rmult_le_reg_r (IZR b)); [exact Hb'|].
    unfold Rdiv. rewrite Rmult_assoc, Rinv_l by lra. lra.
Qed.

Lemma f1_bounds p r :
  (0 <= p <= 1)%R -> (0 <= r <= 1)%R ->
  (0 <= (if Rltb 0 (p + r) then 2 * p * r / (p + r) else 0) <= 1)%R.
Proof.
  intros Hp Hr. unfold Rltb. destruct (Rlt_dec 0 (p + r)) as [H|H]; [|lra].
  assert (0 <= p * r)%R by (apply Rmult_le_pos; lra).
  assert (p * r <= p)%R by nra.
  assert (p * r <= r)%R by nra.
  split.
  - apply Rmult_le_pos; [nra|]. left. apply Rinv_0_lt_compat, H.
  - apply (Rmult_le_reg_r (p + r)); [exact H|].
    unfold Rdiv. rewrite Rmult_assoc, Rinv_l by lra. nra.
Qed.

(** The square of the mcc numerator is at most the product under the
    root. *)
Lemma mcc_numerator_bound a b c d :
  0 <= a -> 0 <= b -> 0 <= c -> 0 <= d ->
  (a * d - b * c) * (a * d - b * c)
  <= (a + b) * (a + c) * (d + b) * (d + c).
Proof.
  intros Ha Hb Hc Hd.
  assert (0 <= a * d) by (apply Z.mul_nonneg_nonneg; lia).
  assert (0 <= b * c) by (apply Z.mul_nonneg_nonneg; lia).
  assert (0 <= a * c) by (apply Z.mul_nonneg_nonneg; lia).
  assert (0 <= b * d) by (apply Z.mul_nonneg_nonneg; lia).
  assert (0 <= a * b) by (apply Z.mul_nonneg_nonneg; lia).
  assert (0 <= c * d) by (apply Z.mul_nonneg_nonneg; lia).
  set (S := a * d + b * c). set (X := a * c + b * d). set (Y := a * b + c * d).
  assert (0 <= S * (X + Y)) by (apply Z.mul_nonneg_nonneg; unfold S, X, Y; lia).
  assert (0 <= X * Y) by (apply Z.mul_nonneg_nonneg; unfold X, Y; lia).
  assert (0 <= (a * d) * (b * c)) by (apply Z.mul_nonneg_nonneg; lia).
  replace ((a + b) * (a + c) * (d + b) * (d + c))
    with ((a * d - b * c) * (a * d - b * c)
          + S * (X + Y) + X * Y + 4 * ((a * d) * (b * c)))
    by (unfold S, X, Y; ring).
  lia.
Qed.

Lemma mcc_bounds num prod :
  0 <= prod -> num * num <= prod ->
  (-1 <= (if Reqb (sqrt (IZR prod)) 0 then 0
          else IZR num / sqrt (IZR prod)) <= 1)%R.
Proof.
  intros Hp Hn. unfold Reqb.
  destruct (Req_dec_T (sqrt (IZR prod)) 0) as [E|E]; [lra|].
  assert (0 <= IZR prod)%R as Hp' by (apply IZR_le; exact Hp).
  pose proof (sqrt_pos (IZR prod)) as Hs.
  assert (0 < sqrt (IZR prod))%R as Hs' by lra.
  assert (IZR num * IZR num <= sqrt (IZR prod) * sqrt (IZR prod))%R as Hsq.
  { rewrite sqrt_sqrt by exact Hp'. rewrite <- mult_IZR. apply IZR_le, Hn. }
  assert (- sqrt (IZR prod) <= IZR num <= sqrt (IZR prod))%R as Habs by nra.
  split.
  - apply (Rmult_le_reg_r (sqrt (IZR prod))); [exact Hs'|].
    unfold Rdiv. rewrite Rmult_assoc, Rinv_l by lra. lra.
  - apply (Rmult_le_reg_r (sqrt (IZR prod))); [exact Hs'|].
    unfold Rdiv. rewrite Rmult_assoc, Rinv_l by lra. lra.
Qed.

Lemma counts_ranges tp fp fn tn :
  counts_ok tp fp fn tn -> 0 < tp + tn + fp + fn ->
  let m := metrics_of_counts tp fp fn tn in
  within 0 1 (c_precision m) /\ within 0 1 (c_recall m) /\
  within 0 1 (c_f1 m) /\ within 0 1 (c_balanced_accuracy m) /\
  within 0 1 (c_weighted_accuracy m) /\ within (-1) 1 (c_mcc m).
Proof.
  intros Hok Hpos. cbv zeta.
  pose proof (counts_ok_rep _ _ _ _ Hok) as Hrep.
  destruct Hok as (H1 & H2 & H3 & H4 & H5).
  pose proof (ratio_bounds tp (tp + fp) ltac:(lia)) as Bp.
  pose proof (ratio_bounds tp (tp + fn) ltac:(lia)) as Br.
  pose proof (ratio_bounds tn (tn + fp) ltac:(lia)) as Bs.
  rewrite (precision_exact _ _ _ _ Hrep), (recall_exact _ _ _ _ Hrep),
    (f1_exact _ _ _ _ Hrep), (balanced_accuracy_exact _ _ _ _ Hrep),
    (weighted_accuracy_exact _ _ _ _ Hrep Hpos).
  rewrite mcc_exact by (unfold counts_ok; auto).
  cbn [within].
  split; [exact Bp|]. split; [exact Br|].
  split; [apply f1_bounds; assumption|].
  split; [lra|].
  split.
  - pose proof (ratio_bounds (tp + tn) (tp + tn + fp + fn) ltac:(lia)) as Bw.
    destruct (Z.ltb_spec 0 (tp + tn + fp + fn)); [exact Bw|lia].
  - apply mcc_bounds.
    + repeat apply Z.mul_nonneg_nonneg; lia.
    + exact (mcc_numerator_bound tp fp fn tn H1 H2 H3 H4).
Qed.

Lemma fsum_within lo hi l :
  Forall (within lo hi) l ->
  exists x, fsum l = Fin x /\
            (INR (length l) * lo <= x <= INR (length l) * hi)%R.
Proof.
  induction 1 as [|a l Ha Hl IH].
  - exists 0%R. split; [reflexivity|]. simpl. lra.
  - destruct IH as (x & Hx & Bx). destruct a as [y| | |]; try contradiction.
    exists (y + x)%R. split.
    + change (fadd (Fin y) (fsum l) = Fin (y + x)). rewrite Hx. reflexivity.
    + cbn [within] in Ha. rewrite length_cons, S_INR. nra.
Qed.

Lemma np_mean_within lo hi l :
  l <> [] -> Forall (within lo hi) l -> within lo hi (np_mean l).
Proof.
  intros Hne H. destruct (fsum_within lo hi l H) as (x & Hx & Bx).
  assert (0 < INR (length l))%R as Hn.
  { apply lt_0_INR. destruct l; [contradiction|simpl; lia]. }
  unfold np_mean, of_int. rewrite Hx, <- INR_IZR_INZ.
  rewrite fdiv_fin by lra. cbn [within].
  split.
  - apply (Rmult_le_reg_r (INR (length l))); [exact Hn|].
    unfold Rdiv. rewrite Rmult_assoc, Rinv_l by lra. lra.
  - apply (Rmult_le_reg_r (INR (length l))); [exact Hn|].
    unfold Rdiv. rewrite Rmult_assoc, Rinv_l by lra. lra.
Qed.

Lemma weighted_sum_within lo hi a w :
  Forall (within lo hi) a -> Forall (Z.le 0) w -> length a = length w ->
  exists x, fsum (zip_with fmul a (map of_int w)) = Fin x /\
            (IZR (zsum w) * lo <= x <= IZR (zsum w) * hi)%R.
Proof.
  intros Ha. revert w. induction Ha as [|y a Hy Ha IH]; intros w Hw Hlen.
  - destruct w; [|discriminate]. exists 0%R. split; [reflexivity|].
    simpl. lra.
  - destruct w as [|z w]; [discriminate|].
    inversion Hw as [|? ? Hz Hw']; subst.
    destruct (IH w Hw' ltac:(simpl in Hlen; lia)) as (x & Hx & Bx).
    destruct y as [y| | |]; try contradiction. cbn [within] in Hy.
    exists (y * IZR z + x)%R. split.
    + change (fadd (fmul (Fin y) (of_int z))
                   (fsum (zip_with fmul a (map of_int w)))
              = Fin (y * IZR z + x)).
      rewrite Hx. reflexivity.
    + cbn [zsum fold_right]. fold (zsum w). rewrite plus_IZR.
      apply IZR_le in Hz. nra.
Qed.

Lemma average_of_within lo hi a w :
  Forall (within lo hi) a -> Forall (Z.le 0) w -> length a = length w ->
  0 < zsum w -> within lo hi (average_of a w).
Proof.
  intros Ha Hw Hlen Hpos.
  destruct (weighted_sum_within lo hi a w Ha Hw Hlen) as (x & Hx & Bx).
  assert (0 < IZR (zsum w))%R as Hn by (apply IZR_lt; exact Hpos).
  unfold average_of. rewrite Hx. unfold of_int. rewrite fdiv_fin by lra.
  cbn [within].
  split.
  - apply (Rmult_le_reg_r (IZR (zsum w))); [exact Hn|].
    unfold Rdiv. rewrite Rmult_assoc, Rinv_l by lra. lra.
  - apply (Rmult_le_reg_r (IZR (zsum w))); [exact Hn|].
    unfold Rdiv. rewrite Rmult_assoc, Rinv_l by lra. lra.
Qed.

(** C6 holds whenever no product overflows: for a square matrix of
    non-negative integers whose total sample count [n] is positive with
    [n^4 < 2^63], every returned scalar is finite, each mcc lies between
    -1 and 1 and every other metric between 0 and 1. *)
Theorem C6_ranges_small_total cm :
  square cm = true -> nonneg cm = true -> small_total cm = true ->
  0 < Spec.total cm ->
  exists r,
    calculate_classification_metrics cm = Ok r /\
    (Forall (within 0 1) (precision (per_class r)) /\
     Forall (within 0 1) (recall (per_class r)) /\
     Forall (within 0 1) (f1_score (per_class r)) /\
     Forall (within 0 1) (balanced_accuracy (per_class r)) /\
     Forall (within 0 1) (weighted_accuracy (per_class r)) /\
     Forall (within (-1) 1) (mcc (per_class r))) /\
    within 0 1 (accuracy (overall r)) /\
    (within 0 1 (macro_precision (overall r)) /\
     within 0 1 (macro_recall (overall r)) /\
     within 0 1 (macro_f1_score (overall r)) /\
     within 0 1 (macro_balanced_accuracy (overall r)) /\
     within 0 1 (macro_weighted_accuracy (overall r)) /\
     within (-1) 1 (macro_mcc (overall r))) /\
    (within 0 1 (weighted_precision (overall r)) /\
     within 0 1 (weighted_recall (overall r)) /\
     within 0 1 (weighted_f1_score (overall r)) /\
     within 0 1 (weighted_balanced_accuracy (overall r)) /\
     within 0 1 (weighted_weighted_accuracy (overall r)) /\
     within (-1) 1 (weighted_mcc (overall r))).
Proof.
  intros Hsq Hn Hs Hpos.
  pose proof (small_total_representable cm Hn Hs) as Hr.
  pose proof (nonneg_rows cm Hn) as Hrows.
  exists (metrics_of cm). split; [apply calculate_square; assumption|].
  assert (forall c,
    let m := class_values cm (np_sum cm) c in
    within 0 1 (c_precision m) /\ within 0 1 (c_recall m) /\
    within 0 1 (c_f1 m) /\ within 0 1 (c_balanced_accuracy m) /\
    within 0 1 (c_weighted_accuracy m) /\ within (-1) 1 (c_mcc m)) as Hclass.
  { intros c. cbv zeta. rewrite class_values_exact by assumption.
    apply counts_ranges; [apply counts_ok_of_matrix; assumption|].
    pose proof (counts_bounds cm c Hrows) as (_&_&_&_&B). lia. }
  assert (Forall (within 0 1) (precision (per_class_of cm)) /\
          Forall (within 0 1) (recall (per_class_of cm)) /\
          Forall (within 0 1) (f1_score (per_class_of cm)) /\
          Forall (within 0 1) (balanced_accuracy (per_class_of cm)) /\
          Forall (within 0 1) (weighted_accuracy (per_class_of cm)) /\
          Forall (within (-1) 1) (mcc (per_class_of cm))) as Hlists.
  { unfold per_class_of, lists_of.
    cbn [precision recall f1_score balanced_accuracy weighted_accuracy mcc].
    repeat split; rewrite map_map; apply Forall_forall; intros x Hx;
      apply in_map_iff in Hx as (c & <- & _);
      destruct (Hclass c) as (P1 & P2 & P3 & P4 & P5 & P6); assumption. }
  destruct Hlists as (L1 & L2 & L3 & L4 & L5 & L6).
  destruct (per_class_of_lengths cm) as (N1 & N2 & N3 & N4 & N5 & N6).
  assert (shape0 cm <> 0%nat) as Hrowsne.
  { unfold shape0. destruct cm; [|discriminate].
    unfold Spec.total in Hpos. simpl in Hpos. lia. }
  assert (forall l : list float64, length l = shape0 cm -> l <> [])
    as Hne by (intros l Hl ->; simpl in Hl; congruence).
  pose proof (np_sum_axis1_exact cm Hn Hr) as Hw.
  assert (Forall (Z.le 0) (np_sum_axis1 cm)) as Hwpos
    by (rewrite Hw; apply row_sums_nonneg, Hrows).
  assert (0 < zsum (np_sum_axis1 cm)) as Hwsum
    by (rewrite Hw, samples_sum; exact Hpos).
  pose proof (np_sum_axis1_length cm) as Hwlen.
  unfold metrics_of. cbn [per_class overall].
  split; [repeat split; assumption|].
  unfold overall_of, overall_from.
  cbn [accuracy macro_precision macro_recall macro_f1_score
       macro_balanced_accuracy macro_weighted_accuracy macro_mcc
       weighted_precision weighted_recall weighted_f1_score
       weighted_balanced_accuracy weighted_weighted_accuracy weighted_mcc].
  split; [|split].
  - destruct (np_trace_exact cm Hsq Hn Hr) as (-> & Ht0 & Ht1).
    rewrite (np_sum_exact cm Hn Hr), truediv_fin by lia. cbn [within].
    pose proof (ratio_bounds (Spec.trace cm) (Spec.total cm) ltac:(lia)) as B.
    destruct (Z.ltb_spec 0 (Spec.total cm)); [exact B|lia].
  - repeat split; apply np_mean_within; auto.
  - repeat split; apply average_of_within; auto; congruence.
Qed.

Lemma C6_ranges_small_total_witness :
  square SCALAR_cm = true /\ nonneg SCALAR_cm = true /\
  small_total SCALAR_cm = true /\ 0 < Spec.total SCALAR_cm /\
  exists r,
    calculate_classification_metrics SCALAR_cm = Ok r /\
    Forall (within (-1) 1) (mcc (per_class r)) /\
    within 0 1 (accuracy (overall r)) /\
    within (-1) 1 (weighted_mcc (overall r)).
Proof.
  assert (square SCALAR_cm = true) as H1 by reflexivity.
  assert (nonneg SCALAR_cm = true) as H2 by reflexivity.
  assert (small_total SCALAR_cm = true) as H3 by reflexivity.
  assert (0 < Spec.total SCALAR_cm) as H4 by (vm_compute; reflexivity).
  repeat (split; [assumption|]).
  destruct (C6_ranges_small_total SCALAR_cm H1 H2 H3 H4)
    as (r & Hr & (_ & _ & _ & _ & _ & Lm) & Ha & _ & (_ & _ & _ & _ & _ & Wm)).
  exists r. auto.
Defined.

(* ------------------------------------------------------------------ *)
(** ** C9: the input array is only read *)




(* ------------------------------------------------------------------ *)
(** ** What the call can raise *)








(* ------------------------------------------------------------------ *)
(** ** When a valid matrix makes the call fail *)

(** A square matrix of non-negative integers with a total below [2^63]
    makes the call fail exactly when all its entries are zero, and the
    failure is the [ZeroDivisionError] of [np.average]; with any nonzero
    entry the call returns. *)
Theorem calculate_fails_iff_all_zero cm :
  square cm = true -> nonneg cm = true -> representable_total cm = true ->
  if all_zero cm
  then calculate_classification_metrics cm = Raise ZeroDivisionError
  else exists r, calculate_classification_metrics cm = Ok r.
Proof.
  intros Hsq Hn Hr. pose proof (nonneg_rows cm Hn) as Hrows.
  pose proof (total_zero_iff cm Hrows) as Hiff.
  pose proof (total_nonneg cm Hrows) as Hnn.
  destruct (square_shape cm Hsq) as [Hrect Hshape].
  destruct (all_zero cm).
  - apply calculate_zero_weights; [assumption|lia|].
    rewrite (weights_sum_total cm Hn Hr). tauto.
  - exists (metrics_of cm). apply calculate_square; try assumption.
    destruct (Z.eq_dec (Spec.total cm) 0) as [E|E]; [|lia].
    apply Hiff in E. discriminate.
Qed.

Lemma calculate_fails_iff_all_zero_witness :
  square zero_2x2 = true /\ nonneg zero_2x2 = true /\
  representable_total zero_2x2 = true /\
  calculate_classification_metrics zero_2x2 = Raise ZeroDivisionError.
Proof.
  assert (square zero_2x2 = true) as H1 by reflexivity.
  assert (nonneg zero_2x2 = true) as H2 by reflexivity.
  assert (representable_total zero_2x2 = true) as H3 by reflexivity.
  repeat (split; [assumption|]).
  exact (calculate_fails_iff_all_zero zero_2x2 H1 H2 H3).
Defined.

(* ------------------------------------------------------------------ *)
(** ** A class without samples or without predictions *)

Lemma sum64_zeros l : Forall (fun x => x = 0) l -> sum64 l = 0.
Proof.
  induction 1 as [|x l Hx Hl IH]; [reflexivity|].
  simpl. fold (sum64 l). rewrite IH, Hx. reflexivity.
Qed.

Lemma nth_zeros l c : Forall (fun x => x = 0) l -> nth c l 0 = 0.
Proof.
  intros H. revert c. induction H as [|x l Hx Hl IH]; intros [|c]; simpl; auto.
Qed.

Lemma zero_over x :
  (if x >? 0 then truediv 0 x else of_int 0) = Fin 0.
Proof.
  rewrite guarded_div. f_equal. destruct (0 <? x); [|reflexivity].
  unfold Rdiv. apply Rmult_0_l.
Qed.

Lemma mul64_zero_l x : Int64.mul 0 x = 0.
Proof. reflexivity. Qed.

Lemma mul64_zero_r x : Int64.mul x 0 = 0.
Proof. unfold Int64.mul. rewrite Z.mul_0_r. reflexivity. Qed.

Lemma mcc_zero_product num :
  (let mcc_denominator := fsqrt (of_int 0) in
   if fne mcc_denominator (of_int 0)
   then fdiv (of_int num) mcc_denominator else of_int 0) = Fin 0.
Proof.
  rewrite (mcc_of_product num 0) by lia. rewrite sqrt_0.
  rewrite Reqb_true by reflexivity. reflexivity.
Qed.

(** The class has no true positive and either no false negative or no
    false positive: precision, recall, f1 and mcc are 0, whatever the
    other two counts are. *)
Lemma idle_counts fp fn tn :
  fp = 0 \/ fn = 0 ->
  let m := metrics_of_counts 0 fp fn tn in
  c_precision m = Fin 0 /\ c_recall m = Fin 0 /\ c_f1 m = Fin 0 /\
  c_mcc m = Fin 0.
Proof.
  intros H. cbv zeta.
  assert (c_precision (metrics_of_counts 0 fp fn tn) = Fin 0) as Hp
    by (rewrite precision_of_counts; apply zero_over).
  assert (c_recall (metrics_of_counts 0 fp fn tn) = Fin 0) as Hr
    by (rewrite recall_of_counts; apply zero_over).
  repeat split; [exact Hp|exact Hr| |].
  - unfold metrics_of_counts in *. cbn [c_f1 c_precision c_recall] in *.
    rewrite Hp, Hr, f1_of_fin. rewrite Rltb_false by lra. reflexivity.
  - rewrite mcc_of_counts.
    assert (Int64.mul (Int64.mul (Int64.mul (Int64.add 0 fp) (Int64.add 0 fn))
                                 (Int64.add tn fp)) (Int64.add tn fn) = 0)
      as ->.
    { destruct H as [-> | ->].
      - change (Int64.add 0 0) with 0. rewrite mul64_zero_l. reflexivity.
      - change (Int64.add 0 0) with 0. rewrite mul64_zero_r. reflexivity. }
    apply mcc_zero_product.
Qed.

(** On every array on which the call returns, with no bound on its
    entries, a class whose row is all zero (it has no samples) or whose
    column is all zero (it is never predicted) has precision, recall, f1
    and mcc equal to 0. *)
Theorem idle_class_gets_zeros cm r c :
  calculate_classification_metrics cm = Ok r ->
  (c < shape0 cm)%nat ->
  Forall (fun x => x = 0) (nth c cm []) \/
  Forall (fun row => nth c row 0 = 0) cm ->
  nth_error (precision (per_class r)) c = Some (Fin 0) /\
  nth_error (recall (per_class r)) c = Some (Fin 0) /\
  nth_error (f1_score (per_class r)) c = Some (Fin 0) /\
  nth_error (mcc (per_class r)) c = Some (Fin 0).
Proof.
  intros H Hc Hidle.
  destruct (calculate_Ok_general cm r H) as (ms & Hms & _ & ->).
  destruct (Forall2_nth_error _ _ _ c c Hms (nth_error_seq_0 _ _ Hc))
    as (m & Hm & Hstep).
  apply class_step_Ok_inv in Hstep.
  assert (Spec.entry cm c c = 0) as Htp.
  { unfold Spec.entry. destruct Hidle as [Hrow|Hcol].
    - apply nth_zeros, Hrow.
    - destruct (nth_in_or_default c cm []) as [Hin| ->];
        [|apply nth_nil_zero].
      rewrite Forall_forall in Hcol. apply Hcol, Hin. }
  assert (exists fp fn tn, (fp = 0 \/ fn = 0) /\
            m = metrics_of_counts 0 fp fn tn) as (fp & fn & tn & Hz & ->).
  { rewrite Hstep. unfold class_values. cbv zeta. rewrite Htp.
    do 3 eexists. split; [|reflexivity].
    destruct Hidle as [Hrow|Hcol].
    - right. rewrite (sum64_zeros _ Hrow). reflexivity.
    - left. rewrite sum64_zeros; [reflexivity|].
      apply Forall_map, Hcol. }
  destruct (idle_counts fp fn tn Hz) as (Hp & Hr & Hf & Hmcc).
  cbn [per_class lists_of precision recall f1_score mcc].
  rewrite !nth_error_map, Hm. cbn [option_map].
  rewrite Hp, Hr, Hf, Hmcc. repeat split; reflexivity.
Qed.

Lemma idle_class_gets_zeros_witness :
  calculate_classification_metrics flair_cm = Ok (metrics_of flair_cm) /\
  (6 < shape0 flair_cm)%nat /\
  Forall (fun x => x = 0) (nth 6 flair_cm []) /\
  nth_error (precision (per_class (metrics_of flair_cm))) 6 = Some (Fin 0) /\
  nth_error (recall (per_class (metrics_of flair_cm))) 6 = Some (Fin 0) /\
  nth_error (f1_score (per_class (metrics_of flair_cm))) 6 = Some (Fin 0) /\
  nth_error (mcc (per_class (metrics_of flair_cm))) 6 = Some (Fin 0).
Proof.
  assert (calculate_classification_metrics flair_cm
          = Ok (metrics_of flair_cm)) as H1
    by (apply calculate_ok; [reflexivity|simpl; lia|vm_compute; discriminate]).
  assert (6 < shape0 flair_cm)%nat as H2 by (simpl; lia).
  assert (Forall (fun x => x = 0) (nth 6 flair_cm [])) as H3
    by (simpl; repeat constructor).
  repeat (split; [assumption|]).
  exact (idle_class_gets_zeros flair_cm _ 6 H1 H2 (or_introl H3)).
Defined.

(* ------------------------------------------------------------------ *)
(** ** [print_metrics] *)

Lemma skipn_nth_error {A} (l : list A) i x :
  nth_error l i = Some x -> skipn i l = x :: skipn (S i) l.
Proof.
  revert i. induction l as [|a l IH]; intros [|i] H; simpl in *;
    try discriminate.
  - injection H as <-. reflexivity.
  - apply IH, H.
Qed.

Lemma skipn_nth_error_None {A} (l : list A) i :
  nth_error l i = None -> skipn i l = [].
Proof. intros H. apply skipn_all2. apply nth_error_None, H. Qed.

Lemma nth_error_zip_with {A B C} (f : A -> B -> C) l k i x y :
  nth_error l i = Some x -> nth_error k i = Some y ->
  nth_error (zip_with f l k) i = Some (f x y).
Proof.
  revert k i. induction l as [|a l IH]; intros [|b k] [|i] Hx Hy;
    simpl in *; try discriminate.
  - injection Hx as <-. injection Hy as <-. reflexivity.
  - apply IH; assumption.
Qed.

Lemma length_zip_with {A B C} (f : A -> B -> C) l k :
  length (zip_with f l k) = Nat.min (length l) (length k).
Proof.
  revert k. induction l as [|a l IH]; intros [|b k]; simpl; auto.
Qed.


(** A list of blocks of [n] strings each: block [c] is found [n * c]
    strings into their concatenation. *)
Lemma concat_blocks {A} (n : nat) (bs : list (list A)) c b :
  Forall (fun b => length b = n) bs -> nth_error bs c = Some b ->
  firstn n (skipn (n * c) (concat bs)) = b.
Proof.
  intros H. revert c. induction H as [|b' bs Hb' Hbs IH]; intros c Hc.
  - destruct c; discriminate.
  - destruct c as [|c]; simpl in Hc.
    + injection Hc as <-. rewrite Nat.mul_0_r. cbn [concat].
      change (skipn 0 (b' ++ concat bs)) with (b' ++ concat bs).
      rewrite firstn_app, Hb', Nat.sub_diag, firstn_O, app_nil_r.
      rewrite <- Hb'. apply firstn_all.
    + cbn [concat].
      replace (n * S c)%nat with (length b' + n * c)%nat by lia.
      rewrite skipn_app, Nat.add_comm, Nat.add_sub.
      rewrite skipn_all2 by lia. rewrite app_nil_l. exact (IH c Hc).
Qed.

Section PrintingLemmas.

Variable format_4f : float64 -> string.

Lemma zip_per_class_lists ms :
  zip_per_class (lists_of ms) = map class_tuple ms.
Proof.
  unfold zip_per_class, lists_of.
  cbn [precision recall f1_score balanced_accuracy weighted_accuracy mcc].
  induction ms as [|m ms IH]; [reflexivity|].
  cbn [map combine]. rewrite IH. reflexivity.
Qed.


(** The loop prints the blocks of the classes that have a label, and
    raises at the first class that has none. *)
Lemma print_classes_out rows i out :
  (i <= length CLASS_LABELS)%nat ->
  print_classes format_4f i rows out
  = (out ++ concat (zip_with (class_block format_4f)
                             (skipn i CLASS_LABELS) rows),
     if (i + length rows <=? length CLASS_LABELS)%nat
     then Ok tt else Raise IndexError).
Proof.
  revert i out. induction rows as [|v rows IH]; intros i out Hi.
  - cbn [print_classes length].
    replace (zip_with (class_block format_4f) (skipn i CLASS_LABELS) [])
      with (@nil (list string)) by (destruct (skipn i CLASS_LABELS); reflexivity).
    cbn [concat]. rewrite app_nil_r, Nat.add_0_r.
    rewrite (proj2 (Nat.leb_le _ _) Hi). reflexivity.
  - cbn [print_classes length].
    destruct (nth_error CLASS_LABELS i) as [label|] eqn:E.
    + assert (i < length CLASS_LABELS)%nat as Hlt
        by (apply nth_error_Some; congruence).
      rewrite IH by lia. rewrite (skipn_nth_error _ _ _ E).
      cbn [zip_with concat]. rewrite <- app_assoc.
      replace (S i + length rows)%nat with (i + S (length rows))%nat by lia.
      reflexivity.
    + rewrite (skipn_nth_error_None _ _ E). cbn [zip_with concat].
      rewrite app_nil_r. apply nth_error_None in E.
      rewrite (proj2 (Nat.leb_gt _ _)) by lia. reflexivity.
Qed.


Lemma print_metrics_out metrics out :
  print_metrics format_4f metrics out
  = let body := concat (zip_with (class_block format_4f) CLASS_LABELS
                                 (zip_per_class (per_class metrics))) in
    if (length (zip_per_class (per_class metrics))
        <=? length CLASS_LABELS)%nat
    then (out ++ report_head format_4f (overall metrics) ++ body
              ++ report_tail format_4f (overall metrics), Ok tt)
    else (out ++ report_head format_4f (overall metrics) ++ body,
          Raise IndexError).
Proof.
  unfold print_metrics. cbv zeta.
  rewrite print_classes_out by lia.
  change (skipn 0 CLASS_LABELS) with CLASS_LABELS.
  change (0 + length (zip_per_class (per_class metrics)))%nat
    with (length (zip_per_class (per_class metrics))).
  destruct (length (zip_per_class (per_class metrics))
            <=? length CLASS_LABELS)%nat;
    rewrite <- ?app_assoc; reflexivity.
Qed.

End PrintingLemmas.

Lemma nth_class_value (f : ClassMetrics -> float64) ms c m :
  nth_error ms c = Some m -> nth c (map f ms) NaN = f m.
Proof.
  intros H. apply nth_error_nth. rewrite nth_error_map, H. reflexivity.
Qed.

(** The blocks the loop prints are the blocks of the report, class by
    class. *)
Lemma class_blocks_report (format_4f : float64 -> string) ms o :
  (length ms <= length CLASS_LABELS)%nat ->
  zip_with (class_block format_4f) CLASS_LABELS (map class_tuple ms)
  = map (Report.class_lines format_4f CLASS_LABELS
           {| per_class := lists_of ms; overall := o |})
        (seq 0 (length ms)).
Proof.
  intros Hlen. apply (nth_ext _ _ [] []).
  - rewrite length_zip_with, !length_map, length_seq. lia.
  - intros c Hc. rewrite length_zip_with, length_map in Hc.
    assert (c < length ms)%nat as Hc1 by lia.
    assert (c < length CLASS_LABELS)%nat as Hc2 by lia.
    destruct (nth_error ms c) as [m|] eqn:Em;
      [|apply nth_error_None in Em; lia].
    destruct (nth_error CLASS_LABELS c) as [label|] eqn:El;
      [|apply nth_error_None in El; lia].
    assert (nth_error (map class_tuple ms) c = Some (class_tuple m)) as Et
      by (rewrite nth_error_map, Em; reflexivity).
    rewrite (nth_error_nth _ _ []
               (nth_error_zip_with (class_block format_4f) _ _ c _ _ El Et)).
    assert (nth_error
              (map (Report.class_lines format_4f CLASS_LABELS
                      {| per_class := lists_of ms; overall := o |})
                   (seq 0 (length ms))) c
            = Some (Report.class_lines format_4f CLASS_LABELS
                      {| per_class := lists_of ms; overall := o |} c)) as Er
      by (rewrite nth_error_map, (nth_error_seq_0 _ _ Hc1); reflexivity).
    rewrite (nth_error_nth _ _ [] Er).
    unfold Report.class_lines, Report.of_class, class_block, class_tuple,
      lists_of.
    cbn [per_class precision recall f1_score balanced_accuracy
         weighted_accuracy mcc].
    rewrite !(nth_class_value _ ms c m Em), (nth_error_nth _ _ _ El).
    reflexivity.
Qed.

(** Printing a computed result of at most ten classes raises nothing and
    prints, after what was printed before, the report of section 4.2 of
    the specification for the ten labels of the script: the two lines of
    the overall accuracy, the heading of the classes and one block of
    seven lines per class (the label of the class and its precision,
    recall, f1, balanced accuracy, weighted accuracy and mcc, taken at
    its index from the six lists of the result), the eight lines of the
    macro averages and the seven lines of the weighted averages. *)
Theorem print_metrics_complete (format_4f : float64 -> string) cm r out :
  calculate_classification_metrics cm = Ok r ->
  (shape0 cm <= 10)%nat ->
  print_metrics format_4f r out
  = (out ++ Report.text format_4f
              [ "N (Noun)"; "V (Verb)"; "NM (Noun Modifier)";
                "D (Determiner)"; "P (Preposition)"; "VM (Verb Modifier)";
                "PRE (Prefix)"; "DT (Determiner Type)"; "NPL (Noun Plural)";
                "CJ (Conjunction)" ]%string r,
     Ok tt).
Proof.
  intros H Hn. destruct (calculate_Ok_general cm r H) as (ms & Hms & _ & ->).
  assert (length ms = shape0 cm) as Hlen.
  { apply Forall2_length in Hms. rewrite length_seq in Hms. auto. }
  rewrite print_metrics_out. cbn [per_class overall]. cbv zeta.
  rewrite zip_per_class_lists, length_map, Hlen.
  change (length CLASS_LABELS) with 10%nat.
  rewrite (proj2 (Nat.leb_le _ _) Hn).
  rewrite (class_blocks_report format_4f ms (overall_from cm (lists_of ms)))
    by (change (length CLASS_LABELS) with 10%nat; lia).
  unfold Report.text, Report.per_class_block, Report.num_classes.
  cbn [per_class lists_of precision]. rewrite length_map.
  reflexivity.
Qed.

Lemma print_metrics_complete_witness :
  calculate_classification_metrics SCALAR_cm = Ok (metrics_of SCALAR_cm) /\
  (shape0 SCALAR_cm <= 10)%nat /\
  print_metrics (fun _ => "0.0000"%string) (metrics_of SCALAR_cm) []
  = ([] ++ Report.text (fun _ => "0.0000"%string)
             [ "N (Noun)"; "V (Verb)"; "NM (Noun Modifier)";
               "D (Determiner)"; "P (Preposition)"; "VM (Verb Modifier)";
               "PRE (Prefix)"; "DT (Determiner Type)"; "NPL (Noun Plural)";
               "CJ (Conjunction)" ]%string (metrics_of SCALAR_cm),
     Ok tt).
Proof.
  assert (calculate_classification_metrics SCALAR_cm
          = Ok (metrics_of SCALAR_cm)) as H1
    by (apply calculate_ok; [reflexivity|simpl; lia|vm_compute; discriminate]).
  assert (shape0 SCALAR_cm <= 10)%nat as H2 by (simpl; lia).
  repeat (split; [assumption|]).
  exact (print_metrics_complete (fun _ => "0.0000"%string) SCALAR_cm _ []
           H1 H2).
Defined.



(* ------------------------------------------------------------------ *)
(** ** Exchanging actual and predicted classes *)

Lemma nth_short (l : list Z) c : (length l <= c)%nat -> nth c l 0 = 0.
Proof. intros H. apply nth_overflow, H. Qed.

Lemma nth_map_seq {A} (f : nat -> A) (d : A) k i :
  (i < k)%nat -> nth i (map f (seq 0 k)) d = f i.
Proof.
  intros H. rewrite (nth_indep _ d (f 0%nat)) by (rewrite length_map, length_seq; exact H).
  rewrite (map_nth f (seq 0 k) 0%nat i), seq_nth by exact H. reflexivity.
Qed.

Lemma nth_column cm c j :
  nth j (map (fun r => nth c r 0) cm) 0 = nth c (nth j cm []) 0.
Proof.
  pose proof (map_nth (fun r => nth c r 0) cm [] j) as E.
  cbv beta in E. rewrite nth_nil_zero in E. exact E.
Qed.

Lemma transpose_row cm c :
  (c < shape1 cm)%nat ->
  nth c (transpose cm) [] = map (fun r => nth c r 0) cm.
Proof.
  intros H. unfold transpose.
  apply (nth_map_seq (fun j => map (fun r => nth j r 0) cm) [] _ c H).
Qed.

Lemma transpose_entry cm i j :
  rectangular cm = true ->
  Spec.entry (transpose cm) i j = Spec.entry cm j i.
Proof.
  intros Hrect. unfold Spec.entry.
  destruct (Nat.lt_ge_cases i (shape1 cm)) as [Hi|Hi].
  - rewrite transpose_row by exact Hi. apply nth_column.
  - rewrite (nth_overflow (transpose cm))
      by (unfold transpose; rewrite length_map, length_seq; exact Hi).
    rewrite nth_nil_zero. symmetry. apply nth_short.
    destruct (nth_in_or_default j cm []) as [Hin| ->]; [|simpl; lia].
    rewrite (rectangular_rows cm _ Hrect Hin). exact Hi.
Qed.

Lemma zsum_map_add {A} (f g : A -> Z) l :
  zsum (map (fun a => f a + g a) l) = zsum (map f l) + zsum (map g l).
Proof. induction l; simpl; lia. Qed.

Lemma zsum_map_zero {A} (f : A -> Z) l :
  (forall a, f a = 0) -> zsum (map f l) = 0.
Proof. intros H. induction l; simpl; rewrite ?H; lia. Qed.

Lemma zsum_by_index row :
  zsum (map (fun j => nth j row 0) (seq 0 (length row))) = zsum row.
Proof. rewrite <- (map_as_seq (fun x => x) 0 row), map_id. reflexivity. Qed.

Lemma sum_of_columns cm k :
  (forall r, In r cm -> length r = k) ->
  zsum (map (Spec.column_sum cm) (seq 0 k)) = Spec.total cm.
Proof.
  induction cm as [|r cm IH]; intros H.
  - apply zsum_map_zero. reflexivity.
  - unfold Spec.column_sum, Spec.total in *. cbn [map zsum fold_right].
    fold (zsum (map zsum cm)). fold (zsum r).
    rewrite (zsum_map_add (fun j => nth j r 0)
                          (fun j => zsum (map (fun r => nth j r 0) cm))).
    rewrite IH by (intros r' Hr'; apply H; right; exact Hr').
    rewrite <- (H r (or_introl eq_refl)), zsum_by_index. reflexivity.
Qed.

Section Transposed.

Variable cm : ndarray.
Hypothesis Hsq : square cm = true.
Hypothesis Hn : nonneg cm = true.

Lemma transpose_shape0 : shape0 (transpose cm) = shape0 cm.
Proof.
  destruct (square_shape cm Hsq) as [_ Hs].
  unfold transpose, shape0. rewrite length_map, length_seq. exact Hs.
Qed.

Lemma transpose_square : square (transpose cm) = true.
Proof.
  destruct (square_shape cm Hsq) as [Hrect Hs].
  pose proof transpose_shape0 as H0.
  assert (forall r, In r (transpose cm) -> length r = shape0 cm) as Hrows.
  { intros r Hr. unfold transpose in Hr. apply in_map_iff in Hr as (j & <- & _).
    rewrite length_map. reflexivity. }
  assert (shape1 (transpose cm) = shape0 (transpose cm)) as H1.
  { rewrite H0. unfold shape1. destruct (transpose cm) as [|r t] eqn:E.
    - unfold shape0 in H0. simpl in H0. exact H0.
    - apply Hrows. left. reflexivity. }
  unfold square. apply andb_true_iff. split; [|apply Nat.eqb_eq, H1].
  unfold rectangular. apply forallb_forall. intros r Hr.
  apply Nat.eqb_eq. rewrite H1, H0. apply Hrows, Hr.
Qed.

Lemma transpose_nonneg : nonneg (transpose cm) = true.
Proof.
  pose proof (nonneg_rows cm Hn) as Hrows.
  unfold nonneg. apply forallb_forall. intros r Hr.
  unfold transpose in Hr. apply in_map_iff in Hr as (j & <- & _).
  apply forallb_forall. intros x Hx. apply in_map_iff in Hx as (row & <- & Hrow).
  apply Z.leb_le. rewrite Forall_forall in Hrows.
  apply (nth_le_zsum row j (Hrows row Hrow)).
Qed.

Lemma transpose_row_sum c :
  Spec.row_sum (transpose cm) c = Spec.column_sum cm c.
Proof.
  destruct (square_shape cm Hsq) as [Hrect Hs].
  unfold Spec.row_sum.
  destruct (Nat.lt_ge_cases c (shape1 cm)) as [Hc|Hc].
  - rewrite transpose_row by exact Hc. reflexivity.
  - rewrite (nth_overflow (transpose cm))
      by (unfold transpose; rewrite length_map, length_seq; exact Hc).
    unfold Spec.column_sum. symmetry.
    rewrite <- (map_id cm) at 1. rewrite map_map.
    transitivity (zsum (map (fun _ : list Z => 0) cm));
      [|apply zsum_map_zero; reflexivity].
    f_equal. apply map_ext_in. intros r Hr. apply nth_short.
    rewrite (rectangular_rows cm r Hrect Hr). exact Hc.
Qed.

Lemma transpose_column_sum c :
  Spec.column_sum (transpose cm) c = Spec.row_sum cm c.
Proof.
  destruct (square_shape cm Hsq) as [Hrect Hs].
  unfold Spec.column_sum, Spec.row_sum, transpose. rewrite map_map.
  rewrite (map_ext _ (fun j => nth j (nth c cm []) 0))
    by (intros j; apply nth_column).
  destruct (nth_in_or_default c cm []) as [Hin|E].
  - rewrite <- (rectangular_rows cm _ Hrect Hin). apply zsum_by_index.
  - rewrite E. apply zsum_map_zero. intros j. apply nth_nil_zero.
Qed.

Lemma transpose_total : Spec.total (transpose cm) = Spec.total cm.
Proof.
  destruct (square_shape cm Hsq) as [Hrect Hs].
  unfold Spec.total at 1. unfold transpose. rewrite map_map.
  apply (sum_of_columns cm (shape1 cm)).
  intros r Hr. apply rectangular_rows; assumption.
Qed.

Lemma transpose_trace : Spec.trace (transpose cm) = Spec.trace cm.
Proof.
  destruct (square_shape cm Hsq) as [Hrect Hs].
  unfold Spec.trace. fold (shape0 (transpose cm)). fold (shape0 cm).
  rewrite transpose_shape0. f_equal. apply map_ext. intros i.
  apply transpose_entry, Hrect.
Qed.

Lemma transpose_counts c :
  Spec.tp (transpose cm) c = Spec.tp cm c /\
  Spec.fp (transpose cm) c = Spec.fn cm c /\
  Spec.fn (transpose cm) c = Spec.fp cm c /\
  Spec.tn (transpose cm) c = Spec.tn cm c.
Proof.
  destruct (square_shape cm Hsq) as [Hrect Hs].
  unfold Spec.tn, Spec.fp, Spec.fn, Spec.tp.
  rewrite transpose_total, transpose_row_sum, transpose_column_sum,
    (transpose_entry cm c c Hrect).
  repeat split; lia.
Qed.

Lemma transpose_reference c :
  Spec.precision (transpose cm) c = Spec.recall cm c /\
  Spec.recall (transpose cm) c = Spec.precision cm c /\
  Spec.f1 (transpose cm) c = Spec.f1 cm c /\
  Spec.weighted_accuracy (transpose cm) c = Spec.weighted_accuracy cm c /\
  Spec.mcc (transpose cm) c = Spec.mcc cm c.
Proof.
  destruct (transpose_counts c) as (Htp & Hfp & Hfn & Htn).
  assert (Spec.precision (transpose cm) c = Spec.recall cm c) as Hp
    by (unfold Spec.precision, Spec.recall; rewrite Htp, Hfp; reflexivity).
  assert (Spec.recall (transpose cm) c = Spec.precision cm c) as Hr
    by (unfold Spec.precision, Spec.recall; rewrite Htp, Hfn; reflexivity).
  repeat split; [exact Hp|exact Hr| | |].
  - unfold Spec.f1. rewrite Hp, Hr.
    rewrite (Rplus_comm (Spec.recall cm c)).
    destruct (Rltb 0 (Spec.precision cm c + Spec.recall cm c));
      [|reflexivity].
    f_equal. ring.
  - unfold Spec.weighted_accuracy. rewrite Htp, Hfp, Hfn, Htn.
    do 2 f_equal. ring.
  - unfold Spec.mcc, Spec.mcc_denominator. rewrite Htp, Hfp, Hfn, Htn.
    replace ((Spec.tp cm c + Spec.fn cm c) * (Spec.tp cm c + Spec.fp cm c)
             * (Spec.tn cm c + Spec.fn cm c) * (Spec.tn cm c + Spec.fp cm c))
      with ((Spec.tp cm c + Spec.fp cm c) * (Spec.tp cm c + Spec.fn cm c)
            * (Spec.tn cm c + Spec.fp cm c) * (Spec.tn cm c + Spec.fn cm c))
      by ring.
    replace (Spec.tp cm c * Spec.tn cm c - Spec.fn cm c * Spec.fp cm c)
      with (Spec.tp cm c * Spec.tn cm c - Spec.fp cm c * Spec.fn cm c)
      by ring.
    reflexivity.
Qed.

End Transposed.

(** Exchanging the roles of actual and predicted classes exchanges
    precision and recall: for every square matrix of non-negative
    integers whose total sample count is positive and below [2^63], the
    call on the transposed matrix returns the recall list of the matrix
    as its precision list and the precision list as its recall list,
    and the same f1 list, weighted accuracy list and overall accuracy;
    the mcc list is the same too when the total [n] has [n^4 < 2^63]. *)
Theorem transpose_swaps_precision_and_recall cm :
  square cm = true -> nonneg cm = true ->
  representable_total cm = true -> 0 < Spec.total cm ->
  exists r rt,
    calculate_classification_metrics cm = Ok r /\
    calculate_classification_metrics (transpose cm) = Ok rt /\
    precision (per_class rt) = recall (per_class r) /\
    recall (per_class rt) = precision (per_class r) /\
    f1_score (per_class rt) = f1_score (per_class r) /\
    weighted_accuracy (per_class rt) = weighted_accuracy (per_class r) /\
    accuracy (overall rt) = accuracy (overall r) /\
    (small_total cm = true -> mcc (per_class rt) = mcc (per_class r)).
Proof.
  intros Hsq Hn Hr Hpos.
  pose proof (transpose_square cm Hsq) as Hsq'.
  pose proof (transpose_nonneg cm Hn) as Hn'.
  pose proof (transpose_total cm Hsq) as Htot.
  assert (representable_total (transpose cm) = true) as Hr'
    by (unfold representable_total in *; rewrite Htot; exact Hr).
  assert (0 < Spec.total (transpose cm)) as Hpos' by (rewrite Htot; exact Hpos).
  exists (metrics_of cm), (metrics_of (transpose cm)).
  split; [apply calculate_square; assumption|].
  split; [apply calculate_square; assumption|].
  unfold metrics_of, per_class_of, lists_of, overall_of, overall_from.
  cbn [per_class overall precision recall f1_score weighted_accuracy mcc
       accuracy].
  rewrite (transpose_shape0 cm Hsq).
  assert (forall (f g : ClassMetrics -> float64),
            (forall c, f (class_values (transpose cm)
                                       (np_sum (transpose cm)) c)
                       = g (class_values cm (np_sum cm) c)) ->
            map f (map (class_values (transpose cm) (np_sum (transpose cm)))
                       (seq 0 (shape0 cm)))
            = map g (map (class_values cm (np_sum cm)) (seq 0 (shape0 cm))))
    as Hlist by (intros f g Hfg; rewrite !map_map; apply map_ext, Hfg).
  assert (forall c,
    let mt := class_values (transpose cm) (np_sum (transpose cm)) c in
    let m := class_values cm (np_sum cm) c in
    c_precision mt = c_recall m /\ c_recall mt = c_precision m /\
    c_f1 mt = c_f1 m /\ c_weighted_accuracy mt = c_weighted_accuracy m /\
    (small_total cm = true -> c_mcc mt = c_mcc m)) as Hclass.
  { intros c. cbv zeta.
    destruct (class_values_reference cm c Hn Hr Hpos)
      as (Hp & Hrec & Hf & _ & Hw & Hm).
    destruct (class_values_reference (transpose cm) c Hn' Hr' Hpos')
      as (Hp' & Hrec' & Hf' & _ & Hw' & Hm').
    destruct (transpose_reference cm Hsq c) as (E1 & E2 & E3 & E4 & E5).
    rewrite Hp, Hrec, Hf, Hw, Hp', Hrec', Hf', Hw', E1, E2, E3, E4.
    repeat split. intros Hs.
    assert (small_total (transpose cm) = true) as Hs'
      by (unfold small_total in *; rewrite Htot; exact Hs).
    rewrite (Hm Hs), (Hm' Hs'), E5. reflexivity. }
  repeat split.
  - apply Hlist. intros c. apply (Hclass c).
  - apply Hlist. intros c. apply (Hclass c).
  - apply Hlist. intros c. apply (Hclass c).
  - apply Hlist. intros c. apply (Hclass c).
  - destruct (np_trace_exact cm Hsq Hn Hr) as [-> _].
    destruct (np_trace_exact (transpose cm) Hsq' Hn' Hr') as [-> _].
    rewrite (np_sum_exact cm Hn Hr), (np_sum_exact _ Hn' Hr').
    rewrite Htot, (transpose_trace cm Hsq). reflexivity.
  - intros Hs. apply Hlist. intros c. apply (Hclass c), Hs.
Qed.

Lemma transpose_swaps_precision_and_recall_witness :
  square SCALAR_cm = true /\ nonneg SCALAR_cm = true /\
  representable_total SCALAR_cm = true /\ 0 < Spec.total SCALAR_cm /\
  exists r rt,
    calculate_classification_metrics SCALAR_cm = Ok r /\
    calculate_classification_metrics (transpose SCALAR_cm) = Ok rt /\
    precision (per_class rt) = recall (per_class r) /\
    recall (per_class rt) = precision (per_class r).
Proof.
  assert (square SCALAR_cm = true) as H1 by reflexivity.
  assert (nonneg SCALAR_cm = true) as H2 by reflexivity.
  assert (representable_total SCALAR_cm = true) as H3 by reflexivity.
  assert (0 < Spec.total SCALAR_cm) as H4 by (vm_compute; reflexivity).
  repeat (split; [assumption|]).
  destruct (transpose_swaps_precision_and_recall SCALAR_cm H1 H2 H3 H4)
    as (r & rt & Hr & Hrt & Hp & Hrec & _).
  exists r, rt. auto.
Defined.

(* ------------------------------------------------------------------ *)
(** ** The module's own run *)

Lemma print_metrics_of (format_4f : float64 -> string) cm out :
  (shape0 cm <= 10)%nat ->
  print_metrics format_4f (metrics_of cm) out
  = (out ++ Report.text format_4f CLASS_LABELS (metrics_of cm), Ok tt).
Proof.
  intros Hn. rewrite print_metrics_out. cbv zeta.
  unfold metrics_of, per_class_of. cbn [per_class overall].
  rewrite zip_per_class_lists, !length_map, length_seq.
  change (length CLASS_LABELS) with 10%nat.
  rewrite (proj2 (Nat.leb_le _ _) Hn).
  rewrite (class_blocks_report format_4f _ (overall_of cm))
    by (rewrite length_map, length_seq;
        change (length CLASS_LABELS) with 10%nat; lia).
  unfold Report.text, Report.per_class_block, Report.num_classes.
  cbn [per_class lists_of precision]. rewrite !length_map.
  reflexivity.
Qed.

(** Running the module raises nothing, whatever the rendering of a
    number to four decimals is: the three example matrices are all
    computed, and what is printed, after what was printed before, is
    the title [Scalar: ] and the report of the first result, the title
    [Flair] and the report of the second, the title [ensemble] and the
    report of the third, each report being the text of section 4.2 of
    the specification for that result and the ten labels of the
    script. *)
Theorem script_prints_three_reports (format_4f : float64 -> string) out :
  let report :=
    Report.text format_4f
      [ "N (Noun)"; "V (Verb)"; "NM (Noun Modifier)"; "D (Determiner)";
        "P (Preposition)"; "VM (Verb Modifier)"; "PRE (Prefix)";
        "DT (Determiner Type)"; "NPL (Noun Plural)"; "CJ (Conjunction)"
      ]%string in
  exists scalar_metrics flair_metrics ensemble_metrics,
    calculate_classification_metrics SCALAR_cm = Ok scalar_metrics /\
    calculate_classification_metrics flair_cm = Ok flair_metrics /\
    calculate_classification_metrics ensemble_cm = Ok ensemble_metrics /\
    script format_4f out
    = (out ++ ["Scalar: "%string] ++ report scalar_metrics
           ++ ["Flair"%string] ++ report flair_metrics
           ++ ["ensemble"%string] ++ report ensemble_metrics, Ok tt).
Proof.
  cbv zeta.
  assert (forall cm, square cm = true -> nonneg cm = true ->
            representable_total cm = true -> (0 <? Spec.total cm) = true ->
            calculate_classification_metrics cm = Ok (metrics_of cm)) as Hcalc.
  { intros cm H1 H2 H3 H4. apply calculate_square; try assumption.
    apply Z.ltb_lt, H4. }
  pose proof (Hcalc SCALAR_cm eq_refl eq_refl eq_refl eq_refl) as E1.
  pose proof (Hcalc flair_cm eq_refl eq_refl eq_refl eq_refl) as E2.
  pose proof (Hcalc ensemble_cm eq_refl eq_refl eq_refl eq_refl) as E3.
  exists (metrics_of SCALAR_cm), (metrics_of flair_cm),
    (metrics_of ensemble_cm).
  repeat (split; [assumption|]).
  unfold script. rewrite E1, E2, E3.
  rewrite (print_metrics_of format_4f SCALAR_cm) by (simpl; lia).
  rewrite (print_metrics_of format_4f flair_cm) by (simpl; lia).
  rewrite (print_metrics_of format_4f ensemble_cm) by (simpl; lia).
  repeat rewrite <- app_assoc. reflexivity.
Qed.
